(** * native-language-cnn: the training script [train.py]

    A shallow embedding of [read_data] and [train] and the properties of
    the data loading, the padding, the label encoding, the epoch loop and
    the checkpointing.

    Observation level.  Python exceptions are values of [exn]; a fallible
    computation returns a [result].  The files the script reads are a
    record of read operations ([filesystem]).  The tensor library, the
    model, the optimizer, the metrics and the splitter are third-party
    code: they are a record of operations ([backend]) over an abstract
    library state, and every call the script makes to them is written to
    a trace in program order.  Calls to the logger and the placement of
    tensors on a CUDA device only write log records or move data; they
    are outside the observation. *)

From Stdlib Require Import ZArith String Ascii Floats.
From stdpp Require Import base option list gmap strings pretty sorting.

Local Open Scope Z_scope.

(** ** Exceptions and results *)

Inductive exn : Type :=
| OSError (path : string)
| UnpicklingError
| KeyError (key : string)
| IndexError
| ValueError
| OverflowError
| TypeError
| UnboundLocalError (name : string)
| ZeroDivisionError
| AssertionError.

Inductive result (A : Type) : Type :=
| Ok (a : A)
| Raise (e : exn).
Arguments Ok {A} a.
Arguments Raise {A} e.

#[global] Instance result_ret : MRet result := fun _ a => Ok a.
#[global] Instance result_bind : MBind result := fun _ _ f m =>
  match m with Ok a => f a | Raise e => Raise e end.
#[global] Instance result_fmap : FMap result := fun _ _ f m =>
  match m with Ok a => Ok (f a) | Raise e => Raise e end.

Definition is_Ok {A} (r : result A) : Prop := exists a, r = Ok a.
Definition succeeded {A} (r : result A) : bool :=
  match r with Ok _ => true | Raise _ => false end.
Definition raised {A} (r : result A) : option exn :=
  match r with Ok _ => None | Raise e => Some e end.

(** A loop [for x in l: s = body(s, x)] whose body may raise. *)
Fixpoint for_each {A S : Type} (body : S -> A -> result S) (l : list A) (s : S)
  : result S :=
  match l with
  | [] => Ok s
  | x :: l' => s' ← body s x; for_each body l' s'
  end.

(** A list comprehension [[f(x) for x in l]] whose element may raise. *)
Fixpoint comprehension {A B : Type} (f : A -> result B) (l : list A)
  : result (list B) :=
  match l with
  | [] => Ok []
  | x :: l' => y ← f x; ys ← comprehension f l'; Ok (y :: ys)
  end.

(** ** Python lists, strings and dicts *)

(** [l[:k]]: a negative [k] counts from the end. *)
Definition slice_to {A} (l : list A) (k : Z) : list A :=
  if 0 <=? k then take (Z.to_nat k) l
  else take (Z.to_nat (Z.of_nat (length l) + k)) l.

(** [l * n]: no copy at all when [n] is zero or negative. *)
Definition list_mul {A} (l : list A) (n : Z) : list A :=
  concat (replicate (Z.to_nat n) l).

(** [l[i]]: a negative [i] counts from the end; out of range raises. *)
Definition getitem {A} (l : list A) (i : Z) : result A :=
  let n := Z.of_nat (length l) in
  let j := if i <? 0 then i + n else i in
  if (0 <=? j) && (j <? n)
  then match l !! Z.to_nat j with Some x => Ok x | None => Raise IndexError end
  else Raise IndexError.

(** [enumerate(l)], counting from [i]. *)
Fixpoint enumerate_from {A} (i : Z) (l : list A) : list (Z * A) :=
  match l with
  | [] => []
  | x :: l' => (i, x) :: enumerate_from (i + 1) l'
  end.
Definition enumerate {A} (l : list A) : list (Z * A) := enumerate_from 0 l.

(** A character of a string is a code point of the text, as [str] has
    them; the type holds the code points below 256.  Those [str.split()]
    treats as separators are the ASCII ones, tab to carriage return and
    file separator to space, then U+0085 (next line) and U+00A0 (no-break
    space). *)
Definition is_space (c : ascii) : bool :=
  let n := N_of_ascii c in
  ((9 <=? n)%N && (n <=? 13)%N) || ((28 <=? n)%N && (n <=? 32)%N)
  || (n =? 133)%N || (n =? 160)%N.

(** [s.split()]: the maximal runs of non-space characters.  [cur] is the
    run being read. *)
Fixpoint split_from (cur : string) (s : string) : list string :=
  match s with
  | EmptyString => if String.eqb cur "" then [] else [cur]
  | String c s' =>
      if is_space c
      then (if String.eqb cur "" then split_from "" s'
            else cur :: split_from "" s')
      else split_from (cur ++ String c "") s'
  end.
Definition split (s : string) : list string := split_from "" s.

(** [os.path.join(a, b)] on a POSIX system. *)
Definition ends_with_slash (a : string) : bool :=
  match String.get (String.length a - 1) a with
  | Some c => Ascii.eqb c "/"
  | None => false
  end.
Definition join (a b : string) : string :=
  if String.prefix "/" b then b
  else if String.eqb a "" || ends_with_slash a then a ++ b
  else a ++ "/" ++ b.

(** The order of [sorted] on strings: lexicographic on the characters. *)
Definition str_le (s1 s2 : string) : Prop := String.leb s1 s2 = true.
Definition str_lt (s1 s2 : string) : Prop := String.ltb s1 s2 = true.

#[global] Instance str_le_dec s1 s2 : Decision (str_le s1 s2).
Proof. unfold str_le. apply _. Defined.

Definition sorted (l : list string) : list string := merge_sort str_le l.

(** A dict display [{k: v for (k, v) in items}]: the items are stored one
    after the other, a later item replacing an earlier one of the same key. *)
Definition dict_of `{Countable K} {V} (items : list (K * V)) : gmap K V :=
  foldl (fun m kv => <[kv.1 := kv.2]> m) ∅ items.

(** [d.items()]. *)
Definition items `{Countable K} {V} (d : gmap K V) : list (K * V) :=
  map_to_list d.

(** [d[k]] on a dict with string keys. *)
Definition dict_get {V} (d : gmap string V) (k : string) : result V :=
  match d !! k with Some v => Ok v | None => Raise (KeyError k) end.

(** ** numpy arrays *)

(** What the lists handed to [np.array] hold: tokens (strings) and the
    padding index (an integer); a sample is a row of them, or, when
    [read_data] is called with [line=False], a single one of them. *)
Inductive pyatom : Type :=
| PyStr (s : string)
| PyInt (n : Z).

Inductive pyobj : Type :=
| Atom (v : pyatom)
| Seq (l : list pyatom).

(** An integer array of one or of two dimensions. *)
Inductive ndarray : Type :=
| Arr1 (l : list Z)
| Arr2 (rows : list (list Z)).

Definition rows (m : ndarray) : list (list Z) :=
  match m with Arr1 _ => [] | Arr2 r => r end.

Definition int64_of_int (n : Z) : result Z :=
  if (- 2 ^ 63 <=? n) && (n <? 2 ^ 63) then Ok n else Raise OverflowError.

(** ** The files the script reads *)

Record filesystem : Type := {
  (** [pd.read_csv(path)['L1'].values.tolist()], for a column whose cells
      all hold a string; a column with an empty cell, which pandas reads
      as the float [nan], is outside what the record describes *)
  read_csv_L1 : string -> result (list string);
  (** [listdir(path)] *)
  listdir : string -> result (list string);
  (** [open(path).readlines()] *)
  readlines : string -> result (list string);
  (** [open(path).read()] *)
  read : string -> result string;
  (** [pickle.load(open(path, 'rb'))], unpacked into two dicts *)
  pickle_load : string -> result (gmap Z string * gmap string Z)
}.

(** ** [read_data] *)

Section ReadData.

(** numpy's conversion of a string to an [int64] entry. *)
Variable int64_of_str : string -> result Z.

Definition int64_of (v : pyatom) : result Z :=
  match v with
  | PyStr s => int64_of_str s
  | PyInt n => int64_of_int n
  end.

(** [np.array(samples, dtype=np.int64)]: the shape is found first, and
    samples that do not all have the shape of the first one raise
    ValueError; the entries are converted after that. *)
Definition np_array (samples : list pyobj) : result ndarray :=
  match samples with
  | [] => Ok (Arr1 [])
  | Atom _ :: _ =>
      if forallb (fun o => match o with
                           | Atom _ => true
                           | Seq _ => false
                           end) samples
      then
        l ← comprehension
              (fun o => match o with
                        | Atom v => int64_of v
                        | Seq _ => Raise ValueError
                        end) samples;
        Ok (Arr1 l)
      else Raise ValueError
  | Seq r :: _ =>
      if forallb (fun o => match o with
                           | Seq r' => Nat.eqb (length r') (length r)
                           | Atom _ => false
                           end) samples
      then
        rs ← comprehension
               (fun o => match o with
                         | Seq r' => comprehension int64_of r'
                         | Atom _ => Raise ValueError
                         end) samples;
        Ok (Arr2 rs)
      else Raise ValueError
  end.

(** Lines 23 to 29: the label encoding. *)
Definition lang_list (lang : list string) : list string :=
  sorted (elements (list_to_set lang : gset string)).

Definition lang_dict (lang : list string) : gmap Z string :=
  dict_of (enumerate (lang_list lang)).

Definition lang_rev_dict (lang : list string) : gmap string Z :=
  dict_of ((fun il : Z * string => (il.2, il.1)) <$> items (lang_dict lang)).

Definition label (lang : list string) : result (list Z) :=
  comprehension (dict_get (lang_rev_dict lang)) lang.

(** The padded sample of a token list:
    [tokens[:max_length] + pad * (max_length - len(tokens))]. *)
Definition padded (max_length vocab_size : Z) (tokens : list pyatom)
  : list pyatom :=
  slice_to tokens max_length
    ++ list_mul [PyInt vocab_size] (max_length - Z.of_nat (length tokens)).

(** The body of the loop over [enumerate(listdir(file_dir))]. *)
Definition read_file (fs : filesystem) (file_dir : string)
    (max_length vocab_size : Z) (line : bool) (label : list Z)
    (st : list pyobj * list Z) (ifl : Z * string)
  : result (list pyobj * list Z) :=
  let '(samples, label_line) := st in
  let '(i, fl) := ifl in
  if line then
    lines ← readlines fs (join file_dir fl);
    let samples :=
      foldl (fun samples ln =>
               let tokens := PyStr <$> split ln in
               samples ++ [Seq (padded max_length vocab_size tokens)])
            samples lines in
    li ← getitem label i;
    Ok (samples, label_line ++ list_mul [li] (Z.of_nat (length lines)))
  else
    text ← read fs (join file_dir fl);
    let tokens := PyStr <$> split text in
    Ok (samples ++ (Atom <$> padded max_length vocab_size tokens), label_line).

Definition read_data (fs : filesystem) (file_dir label_file : string)
    (max_length vocab_size : Z) (line : bool)
  : result (ndarray * list Z * gmap Z string) :=
  lang ← read_csv_L1 fs label_file;
  label ← label lang;
  files ← listdir fs file_dir;
  '(samples, label_line) ←
    for_each (read_file fs file_dir max_length vocab_size line label)
             (enumerate files) ([], []);
  let label := if line then label_line else label in
  mat ← np_array samples;
  Ok (mat, label, lang_dict lang).

End ReadData.

(** A conversion for the examples: an optional sign and decimal digits. *)
Fixpoint digits (acc : Z) (s : string) : result Z :=
  match s with
  | EmptyString => Ok acc
  | String c s' =>
      let n := Z.of_N (N_of_ascii c) in
      if (48 <=? n) && (n <=? 57) then digits (10 * acc + (n - 48)) s'
      else Raise ValueError
  end.

Definition decimal (s : string) : result Z :=
  match s with
  | EmptyString => Raise ValueError
  | String "-" EmptyString => Raise ValueError
  | String "-" s' => n ← digits 0 s'; int64_of_int (- n)
  | _ => n ← digits 0 s; int64_of_int n
  end.

(** A small directory for the examples: a label file of three rows, a
    train directory of two files and a dev directory of one. *)
Definition example_fs : filesystem := {|
  read_csv_L1 p :=
    if String.eqb p "labels.csv" then Ok ["KOR"; "ARA"; "KOR"]
    else Raise (OSError p);
  listdir p :=
    if String.eqb p "feat/train" then Ok ["a.txt"; "b.txt"]
    else if String.eqb p "feat/dev" then Ok ["c.txt"]
    else Raise (OSError p);
  readlines p :=
    if String.eqb p "feat/train/a.txt" then Ok ["3 1 4 1
"; "5
"]
    else if String.eqb p "feat/train/b.txt" then Ok ["2 7
"]
    else if String.eqb p "feat/dev/c.txt" then Ok ["6 2 8
"]
    else Raise (OSError p);
  read p :=
    if String.eqb p "feat/train/a.txt" then Ok "3 1 4 1
5
"
    else if String.eqb p "feat/train/b.txt" then Ok "2 7
"
    else Raise (OSError p);
  pickle_load p :=
    if String.eqb p "feat/dict.pkl"
    then Ok (dict_of [(0, "a b"); (1, "b c"); (2, "c d")],
             dict_of [("a b", 0); ("b c", 1); ("c d", 2)])
    else Raise (OSError p)
|}.

(** ** The command line *)

Module args.
Record t : Type := {
  lr : float;
  seed : Z;
  regularization : float;
  clip_norm : option float;
  dropout : float;
  num_epochs : Z;
  batch_size : Z;
  val_split : float;
  max_length : Z;
  embed_dim : Z;
  channel : Z;
  feature_dir : string;
  label : string;
  log_dir : string;
  save_every : Z;
  cuda : option Z
}.
End args.

(** Truth values of [if x:]. [None], [0.0] and the empty string are false. *)
Definition truthy_float (x : option float) : bool :=
  match x with
  | None => false
  | Some f => negb (PrimFloat.eqb f 0%float)
  end.

(** The float an option holds where the script has tested that it holds
    one. *)
Definition the_float (x : option float) : float := default 0%float x.

Definition truthy_str (x : option string) : bool :=
  match x with
  | None => false
  | Some s => negb (String.eqb s "")
  end.

(** [a % b] on integers. *)
Definition py_mod (a b : Z) : result Z :=
  if b =? 0 then Raise ZeroDivisionError else Ok (a mod b).

(** [range(n)] *)
Definition range (n : Z) : list Z := seqZ 0 n.

(** ["{:04d}".format(n)]: at least four characters, zeros after the sign. *)
Definition format_04d (n : Z) : string :=
  let ds := pretty (Z.abs_N n) in
  if n <? 0
  then "-" ++ String.concat "" (replicate (3 - String.length ds) "0") ++ ds
  else String.concat "" (replicate (4 - String.length ds) "0") ++ ds.

(** The file one checkpoint is saved to (line 157). *)
Definition save_path (save_dir : string) (ep : Z) : string :=
  join save_dir ("model-state-" ++ format_04d (ep + 1) ++ ".pkl").

(** ** The libraries *)

(** What the script passes where an iterable of parameters is expected:
    the iterator [nlcnn_model.parameters()] returns, or the method
    [nlcnn_model.parameters] itself. *)
Inductive params : Type :=
| Parameters
| BoundMethod.

(** The calls the script makes to the libraries, with the arguments that
    the effect of the call depends on. *)
Inductive call (Loss : Type) : Type :=
| TrainTestSplit
| NativeLanguageCNN (n_features embed_dim : Z) (dropout : float)
    (channel n_lang : Z)
| Adam (lr weight_decay : float)
| CrossEntropyLoss
| DataLoader (batch_size : Z)
| Iterate
| ModelTrain
| ModelCall (x : ndarray)
| Criterion (y : list Z)
| ZeroGrad
| Backward (loss : Loss)
| ClipGradNorm (max_norm : float)
| OptimizerStep
| ModelEval
| Save (path : string).
Arguments TrainTestSplit {Loss}.
Arguments NativeLanguageCNN {Loss}.
Arguments Adam {Loss}.
Arguments CrossEntropyLoss {Loss}.
Arguments DataLoader {Loss}.
Arguments Iterate {Loss}.
Arguments ModelTrain {Loss}.
Arguments ModelCall {Loss}.
Arguments Criterion {Loss}.
Arguments ZeroGrad {Loss}.
Arguments Backward {Loss}.
Arguments ClipGradNorm {Loss}.
Arguments OptimizerStep {Loss}.
Arguments ModelEval {Loss}.
Arguments Save {Loss}.

(** The third-party code, as the script uses it.  [World] is the state of
    the libraries: the parameters of the model, their gradients, the
    moments of the optimizer, the random generators, the files saved. *)
Record backend : Type := {
  World : Type;
  Score : Type;
  Loss : Type;
  Loader : Type;
  (** what a call does to the state of the libraries *)
  effect : call Loss -> World -> World;
  (** numpy's conversion of a token to an [int64] entry *)
  int64_of_str : string -> result Z;
  (** [train_test_split(mat, label, test_size=val_split)] *)
  train_test_split :
    World -> ndarray -> list Z -> float ->
    result (ndarray * ndarray * list Z * list Z);
  (** [DataLoader(TensorDataset(mat, label), batch_size, shuffle=True)] *)
  data_loader : ndarray -> list Z -> Z -> result Loader;
  (** the mini-batches of one pass over the loader *)
  iterate : World -> Loader -> list (ndarray * list Z);
  (** [nlcnn_model(x)] *)
  forward : World -> ndarray -> Score;
  (** [np.argmax(score.data.cpu().numpy(), axis=1).tolist()] *)
  argmax : Score -> list Z;
  (** [criterion(score, y)] *)
  criterion : Score -> list Z -> Loss;
  (** [loss.data.cpu().numpy()[0]] *)
  item : Loss -> float;
  (** the total norm [clip_grad_norm] returns *)
  total_norm : World -> float;
  (** [f1_score(y, pred, average='weighted')] *)
  f1_score : list Z -> list Z -> float
}.

(** ** Computations that call the libraries *)

Section Train.

Context (B : backend).

Record state : Type := {
  world : World B;
  trace : list (call (Loss B))
}.

(** A computation: from a state to a result and the state reached, also
    when it raises. *)
Definition M (A : Type) : Type := state -> result A * state.

Definition ret {A} (a : A) : M A := fun st => (Ok a, st).
Definition bind {A A'} (m : M A) (k : A -> M A') : M A' :=
  fun st =>
    match m st with
    | (Ok a, st') => k a st'
    | (Raise e, st') => (Raise e, st')
    end.
Definition raise {A} (e : exn) : M A := fun st => (Raise e, st).
Definition lift {A} (r : result A) : M A := fun st => (r, st).
(** Read a value off the state of the libraries. *)
Definition observe {A} (f : World B -> A) : M A :=
  fun st => (Ok (f (world st)), st).
(** Make a call: it acts on the libraries and is written to the trace.
    The call is taken to return; a run in which a library raises, for one
    [torch.save] into a directory that is missing, is outside what the
    computations describe. *)
Definition do (c : call (Loss B)) : M unit :=
  fun st => (Ok tt, {| world := effect B c (world st);
                       trace := trace st ++ [c] |}).

#[local] Instance M_ret : MRet M := @ret.
#[local] Instance M_bind : MBind M := fun _ _ k m => bind m k.

(** A loop [for x in l] whose body calls the libraries. *)
Fixpoint loop {A S : Type} (body : S -> A -> M S) (l : list A) (s : S) : M S :=
  match l with
  | [] => ret s
  | x :: l' => s' ← body s x; loop body l' s'
  end.

(** [nn.utils.clip_grad_norm(parameters, max_norm)] starts by iterating
    over [parameters]; a method object is not iterable. *)
Definition clip_grad_norm (parameters : params) (max_norm : float) : M float :=
  match parameters with
  | BoundMethod => raise TypeError
  | Parameters =>
      do (ClipGradNorm max_norm);;
      observe (total_norm B)
  end.

(** [optim.Adam(parameters, lr=lr, weight_decay=weight_decay)] *)
Definition optim_Adam (parameters : params) (lr weight_decay : float) : M unit :=
  match parameters with
  | BoundMethod => raise TypeError
  | Parameters => do (Adam lr weight_decay)
  end.

(** ** [train] *)

(** The variables of the batch loop (lines 111 to 137): the predictions
    and the labels seen in the epoch, and [loss], which the loop assigns
    and which is read after it. *)
Record batch_vars : Type := {
  train_pred : list Z;
  train_y : list Z;
  loss : option (Loss B)
}.

(** Lines 114 to 137: one mini-batch. *)
Definition train_batch (a : args.t) (v : batch_vars) (xy : ndarray * list Z)
  : M batch_vars :=
  let '(x, y) := xy in
  do ModelTrain;;
  score ← observe (fun w => forward B w x);
  do (ModelCall x);;
  let pred := argmax B score in
  let train_pred := train_pred v ++ pred in
  let train_y := train_y v ++ y in
  let loss := criterion B score y in
  do (Criterion y);;
  do ZeroGrad;;
  do (Backward loss);;
  (if truthy_float (args.clip_norm a)
   then norm ← clip_grad_norm BoundMethod (the_float (args.clip_norm a));
        ret tt
   else ret tt);;
  do OptimizerStep;;
  ret {| train_pred := train_pred; train_y := train_y; loss := Some loss |}.

(** The variables of the epoch loop (lines 102 to 160). *)
Record epoch_vars : Type := {
  train_loss : list float;
  train_f1 : list float;
  val_f1 : list float;
  last_loss : option (Loss B)
}.

(** Lines 152 to 158: save the model state. *)
Definition save_model_state (a : args.t) (save_dir : option string) (ep : Z)
  : M unit :=
  if truthy_str save_dir then
    r ← lift (py_mod (ep + 1) (args.save_every a));
    if (r =? 0) || (ep =? args.num_epochs a - 1)
    then do (Save (save_path (default "" save_dir) ep))
    else ret tt
  else ret tt.

(** Lines 107 to 158: one epoch. *)
Definition epoch (a : args.t) (save_dir : option string)
    (train_data_loader : Loader B) (val_mat : ndarray) (val_label : list Z)
    (v : epoch_vars) (ep : Z) : M epoch_vars :=
  batches ← observe (fun w => iterate B w train_data_loader);
  do Iterate;;
  bv ← loop (train_batch a) batches
          {| train_pred := []; train_y := []; loss := last_loss v |};
  l ← match loss bv with
       | Some l => ret l
       | None => raise (UnboundLocalError "loss")
       end;
  let train_loss := train_loss v ++ [item B l] in
  let train_f1 := train_f1 v ++ [f1_score B (train_y bv) (train_pred bv)] in
  do ModelEval;;
  val_score ← observe (fun w => forward B w val_mat);
  do (ModelCall val_mat);;
  let val_pred := argmax B val_score in
  let val_f1 := val_f1 v ++ [f1_score B val_label val_pred] in
  save_model_state a save_dir ep;;
  ret {| train_loss := train_loss; train_f1 := train_f1; val_f1 := val_f1;
         last_loss := loss bv |}.

(** Lines 102 to 160: the epoch loop. *)
Definition train_epochs (a : args.t) (save_dir : option string)
    (train_data_loader : Loader B) (val_mat : ndarray) (val_label : list Z)
  : M (list float * list float * list float) :=
  v ← loop (epoch a save_dir train_data_loader val_mat val_label)
         (range (args.num_epochs a))
         {| train_loss := []; train_f1 := []; val_f1 := [];
            last_loss := None |};
  ret (train_loss v, train_f1 v, val_f1 v).

(** Lines 53 to 160.  The messages to the logger and the moves of the
    model and of the tensors to a CUDA device (lines 81 to 84, 99, 115 to
    117) change neither the values computed nor the calls below; they are
    not written to the trace, and a move that raises is outside what the
    computation describes. *)
Definition train (fs : filesystem) (a : args.t) (save_dir : option string)
  : M (list float * list float * list float) :=
  dicts ← lift (pickle_load fs (join (args.feature_dir a) "dict.pkl"));
  let n_features := Z.of_nat (size dicts.1) in
  data ← lift (read_data (int64_of_str B) fs
                  (join (args.feature_dir a) "train") (args.label a)
                  (args.max_length a) n_features true);
  let '(train_mat, train_label, lang_dict) := data in
  parts ← (fun st => (train_test_split B (world st) train_mat train_label
                         (args.val_split a), st));
  do TrainTestSplit;;
  let '(train_mat, val_mat, train_label, val_label) := parts in
  do (NativeLanguageCNN n_features (args.embed_dim a) (args.dropout a)
        (args.channel a) (Z.of_nat (size lang_dict)));;
  optim_Adam Parameters (args.lr a) (args.regularization a);;
  do CrossEntropyLoss;;
  train_data_loader ← lift (data_loader B train_mat train_label
                               (args.batch_size a));
  do (DataLoader (args.batch_size a));;
  train_epochs a save_dir train_data_loader val_mat val_label.

End Train.

#[global] Existing Instances M_ret M_bind.
Arguments world {B} _.
Arguments trace {B} _.
Arguments train_pred {B} _.
Arguments train_y {B} _.
Arguments loss {B} _.
Arguments train_loss {B} _.
Arguments train_f1 {B} _.
Arguments val_f1 {B} _.
Arguments last_loss {B} _.

(** ** The data loader *)

(** Modelled from the spec: torch's [DataLoader] is third-party code and
    not part of the repository.  The spec has the script shuffle the
    samples "into mini-batches" in a "single-pass-per-epoch" loop: one
    pass takes the samples in a shuffled order and cuts that sequence into
    consecutive mini-batches of [batch_size] samples, the last one holding
    what is left.  [order] is the shuffled order, a list of positions. *)
Fixpoint batched {A} (fuel n : nat) (l : list A) : list (list A) :=
  match fuel with
  | O => []
  | S fuel' =>
      match l with
      | [] => []
      | _ => take n l :: batched fuel' n (drop n l)
      end
  end.

Definition mini_batches {A} (n : nat) (l : list A) : list (list A) :=
  batched (length l) n l.

Definition shuffled {A} (order : list nat) (l : list A) : list A :=
  omap (fun i => l !! i) order.

(** A loader: the samples, each with its label, and the batch size. *)
Definition spec_data_loader (mat : ndarray) (label : list Z) (batch_size : Z)
  : result (list (list Z * Z) * Z) :=
  if Nat.eqb (length (rows mat)) (length label)
  then if 0 <? batch_size then Ok (zip (rows mat) label, batch_size)
       else Raise ValueError
  else Raise AssertionError.

Definition spec_iterate (order : list nat) (ld : list (list Z * Z) * Z)
  : list (ndarray * list Z) :=
  (fun b : list (list Z * Z) => (Arr2 b.*1, b.*2))
    <$> mini_batches (Z.to_nat ld.2) (shuffled order ld.1).

(** A backend whose loader is the one above; [randperm] draws the order
    of a pass from the state of the libraries. *)
Definition with_spec_loader (B : backend)
    (randperm : World B -> nat -> list nat) : backend := {|
  World := World B;
  Score := Score B;
  Loss := Loss B;
  Loader := list (list Z * Z) * Z;
  effect := effect B;
  int64_of_str := int64_of_str B;
  train_test_split := train_test_split B;
  data_loader := spec_data_loader;
  iterate w ld := spec_iterate (randperm w (length ld.1)) ld;
  forward := forward B;
  argmax := argmax B;
  criterion := criterion B;
  item := item B;
  total_norm := total_norm B;
  f1_score := f1_score B
|}.

(** ** A backend for the examples *)

Definition sumZ (l : list Z) : Z := foldr Z.add 0 l.

Definition float_of_Z (n : Z) : float :=
  PrimFloat.of_uint63 (Uint63.of_Z (Z.abs n)).

(** The library state counts the optimizer steps taken; the score of a
    row is its sum plus that count, and the loss of a batch the distance
    between the scores and the labels.  The split takes the first sample
    as the validation set; a pass reads the samples last to first. *)
Definition toy_core : backend := {|
  World := Z;
  Score := list Z;
  Loss := Z;
  Loader := unit;
  effect c w := match c with OptimizerStep => w + 1 | _ => w end;
  int64_of_str := decimal;
  train_test_split w mat label test_size :=
    match rows mat, label with
    | r :: rs, l :: ls => Ok (Arr2 rs, Arr2 [r], ls, [l])
    | _, _ => Raise ValueError
    end;
  data_loader _ _ _ := Ok tt;
  iterate _ _ := [];
  forward w x := (fun r => w + sumZ r) <$> rows x;
  argmax s := (fun v => v mod 2) <$> s;
  criterion s y := Z.abs (sumZ s - sumZ y);
  item l := float_of_Z l;
  total_norm _ := 1%float;
  f1_score y p :=
    (float_of_Z (Z.of_nat (length (filter (fun yp => yp.1 = yp.2) (zip y p))))
     / float_of_Z (Z.of_nat (length y)))%float
|}.

Definition toy : backend :=
  with_spec_loader toy_core (fun _ n => reverse (seq 0 n)).

(** The arguments of the example runs: three epochs over mini-batches of
    one sample; the gradient clipping, the saving period and the label file
    vary. *)
Definition example_run (clip_norm : option float) (save_every : Z)
    (label : string) : args.t := {|
  args.lr := 0.0625;
  args.seed := 224;
  args.regularization := 0;
  args.clip_norm := clip_norm;
  args.dropout := 0.25;
  args.num_epochs := 3;
  args.batch_size := 1;
  args.val_split := 0.125;
  args.max_length := 3;
  args.embed_dim := 500;
  args.channel := 500;
  args.feature_dir := "feat";
  args.label := label;
  args.log_dir := "model";
  args.save_every := save_every;
  args.cuda := None
|}.

Definition example_args : args.t := example_run None 2 "labels.csv".

Definition start : state toy := {| world := 0 : World toy; trace := [] |}.

(** A loader over two training samples, batch size one, as
    [spec_data_loader] builds it. *)
Definition example_loader : Loader toy :=
  ([([5; 9; 9], 1); ([2; 7; 3], 0)], 1).

(** [example_fs], where the file at [path] cannot be read. *)
Definition unreadable (path : string) (fs : filesystem) : filesystem := {|
  read_csv_L1 := read_csv_L1 fs;
  listdir := listdir fs;
  readlines p := if String.eqb p path then Raise (OSError p) else readlines fs p;
  read p := if String.eqb p path then Raise (OSError p) else read fs p;
  pickle_load := pickle_load fs
|}.

(** A label file of one row and a directory of one file of one line. *)
Definition one_line_fs (ln : string) : filesystem := {|
  read_csv_L1 _ := Ok ["KOR"];
  listdir _ := Ok ["a.txt"];
  readlines _ := Ok [ln];
  read _ := Ok ln;
  pickle_load p := Raise (OSError p)
|}.

(** [fs] with another [L1] column in its label files. *)
Definition relabelled (lang : list string) (fs : filesystem) : filesystem := {|
  read_csv_L1 p := _ ← read_csv_L1 fs p; Ok lang;
  listdir := listdir fs;
  readlines := readlines fs;
  read := read fs;
  pickle_load := pickle_load fs
|}.

(** [fs] where the directories hold the files named [f] only. *)
Definition only_file (f : string) (fs : filesystem) : filesystem := {|
  read_csv_L1 := read_csv_L1 fs;
  listdir p := files ← listdir fs p; Ok (List.filter (String.eqb f) files);
  readlines := readlines fs;
  read := read fs;
  pickle_load := pickle_load fs
|}.

(** ** The script (lines 163 to 221) *)

(** What the script asks of the system: the time, a new directory, the
    file the log is written to. *)
Record system : Type := {
  (** [strftime("%Y-%m-%d-%H%M%S")] *)
  strftime : string;
  (** [makedirs(path)]: raises where the directory exists *)
  makedirs : string -> result unit;
  (** [logging.basicConfig(filename=path, ...)] opens the log file *)
  open_log : string -> result unit
}.

(** [np.random.seed(seed)] takes a seed between 0 and [2 ** 32 - 1]. *)
Definition np_random_seed (seed : Z) : result unit :=
  if (0 <=? seed) && (seed <? 2 ^ 32) then Ok tt else Raise ValueError.

Section Main.

Context (B : backend).

(** What [np.random.seed] and [torch.manual_seed] do to the generators. *)
Variable manual_seed : Z -> World B -> World B.

Definition seed_generators (seed : Z) : M B unit :=
  fun st => (Ok tt, {| world := manual_seed seed (world st);
                       trace := trace st |}).

(** Lines 216 to 219: a seed of zero leaves the generators as they are. *)
Definition set_random_seed (a : args.t) : M B unit :=
  if args.seed a =? 0 then ret B tt
  else
    lift B (np_random_seed (args.seed a));;
    seed_generators (args.seed a).

(** The script, from the parsed arguments on. *)
Definition main (sys : system) (fs : filesystem) (a : args.t) : M B unit :=
  let timestamp := strftime sys in
  let log_dir := join (args.log_dir a) timestamp in
  lift B (makedirs sys log_dir);;
  lift B (open_log sys (join log_dir (timestamp ++ ".log")));;
  set_random_seed a;;
  train B fs a (Some log_dir);;
  ret B tt.

End Main.

(** A system for the examples: no directory exists yet. *)
Definition example_system : system := {|
  strftime := "2017-11-04-120000";
  makedirs _ := Ok tt;
  open_log _ := Ok tt
|}.

(** [a] with another seed. *)
Definition with_seed (seed : Z) (a : args.t) : args.t := {|
  args.lr := args.lr a;
  args.seed := seed;
  args.regularization := args.regularization a;
  args.clip_norm := args.clip_norm a;
  args.dropout := args.dropout a;
  args.num_epochs := args.num_epochs a;
  args.batch_size := args.batch_size a;
  args.val_split := args.val_split a;
  args.max_length := args.max_length a;
  args.embed_dim := args.embed_dim a;
  args.channel := args.channel a;
  args.feature_dir := args.feature_dir a;
  args.label := args.label a;
  args.log_dir := args.log_dir a;
  args.save_every := args.save_every a;
  args.cuda := args.cuda a
|}.

(** ** What a run leaves behind *)

(** The files [torch.save] was called on, in the order of the calls. *)
Definition saves {L} (t : list (call L)) : list string :=
  omap (fun c => match c with Save p => Some p | _ => None end) t.

(** The passes over the data loader that were started (line 113), one for
    each execution of the body of the epoch loop. *)
Definition passes {L} (t : list (call L)) : nat :=
  length (omap (fun c => match c with Iterate => Some tt | _ => None end) t).

(** The losses [backward] was called on, one for each mini-batch. *)
Definition losses {L} (t : list (call L)) : list L :=
  omap (fun c => match c with Backward l => Some l | _ => None end) t.

(** The optimizer steps taken. *)
Definition steps {L} (t : list (call L)) : nat :=
  length (omap (fun c => match c with OptimizerStep => Some tt | _ => None end) t).

(** The inputs the model was run on, in the order of the calls. *)
Definition model_inputs {L} (t : list (call L)) : list ndarray :=
  omap (fun c => match c with ModelCall x => Some x | _ => None end) t.

(** The labels the criterion was called on, in the order of the calls. *)
Definition criterion_labels {L} (t : list (call L)) : list (list Z) :=
  omap (fun c => match c with Criterion y => Some y | _ => None end) t.

(** What is kept of one epoch of a run: the state it starts in, the value
    [loss] has then, the variables its batch loop ends with and the state
    the batch loop ends in. *)
Record epoch_run (B : backend) : Type := {
  started : state B;
  loss_before : option (Loss B);
  batch_loop : batch_vars B;
  trained : state B
}.
Arguments started {B} _.
Arguments loss_before {B} _.
Arguments batch_loop {B} _.
Arguments trained {B} _.

(** The batch loop of lines 111 to 137 has run over the pass the loader
    gives in [started r], to its end in [trained r]. *)
Definition ran_batch_loop (B : backend) (a : args.t) (loader : Loader B)
    (r : epoch_run B) : Prop :=
  loop B (train_batch B a) (iterate B (world (started r)) loader)
       {| train_pred := []; train_y := []; loss := loss_before r |}
       {| world := effect B Iterate (world (started r));
          trace := trace (started r) ++ [Iterate] |}
  = (Ok (batch_loop r), trained r).

(** The condition of line 154, where it can be evaluated. *)
Definition save_due (a : args.t) (ep : Z) : bool :=
  ((ep + 1) mod args.save_every a =? 0) || (ep =? args.num_epochs a - 1).

(** The calls of one training step that ends with the optimizer step. *)
Definition step_calls {L} (x : ndarray) (y : list Z) (l : L) : list (call L) :=
  [ModelTrain; ModelCall x; Criterion y; ZeroGrad; Backward l; OptimizerStep].

(** A computation all of whose calls to the libraries are calls [P] holds
    of, whether it returns or raises. *)
Definition calls_only {B A} (P : call (Loss B) -> Prop) (m : M B A) : Prop :=
  forall st, exists t, trace (m st).2 = trace st ++ t /\ Forall P t.

(** ** Failing inputs *)

(** Reading the inputs of [train] fails with [e]: at the pickle of the
    feature dictionary, at the label file, at the listing of the train
    directory, or at one of its files, those before it having been read. *)
Inductive load_failure (fs : filesystem) (a : args.t) (e : exn) : Prop :=
| pickle_fails :
    pickle_load fs (join (args.feature_dir a) "dict.pkl") = Raise e ->
    load_failure fs a e
| label_file_fails dicts :
    pickle_load fs (join (args.feature_dir a) "dict.pkl") = Ok dicts ->
    read_csv_L1 fs (args.label a) = Raise e ->
    load_failure fs a e
| listing_fails dicts lang :
    pickle_load fs (join (args.feature_dir a) "dict.pkl") = Ok dicts ->
    read_csv_L1 fs (args.label a) = Ok lang ->
    listdir fs (join (args.feature_dir a) "train") = Raise e ->
    load_failure fs a e
| file_fails dicts lang files fl files' liness :
    pickle_load fs (join (args.feature_dir a) "dict.pkl") = Ok dicts ->
    read_csv_L1 fs (args.label a) = Ok lang ->
    listdir fs (join (args.feature_dir a) "train") = Ok (files ++ fl :: files') ->
    Forall2 (fun f lines =>
               readlines fs (join (join (args.feature_dir a) "train") f) = Ok lines)
            files liness ->
    (length files <= length lang)%nat ->
    readlines fs (join (join (args.feature_dir a) "train") fl) = Raise e ->
    load_failure fs a e.

(** * Properties *)

(** ** Results and loops *)

Lemma bind_Ok {A A'} (m : result A) (k : A -> result A') (b : A') :
  m ≫= k = Ok b -> exists a, m = Ok a /\ k a = Ok b.
Proof. destruct m as [a|e]; simpl; [eauto | discriminate]. Qed.

Ltac inv_bind H :=
  let a := fresh "a" in
  let Ha := fresh "Ha" in
  apply bind_Ok in H; destruct H as (a & Ha & H).

Lemma comprehension_Forall2 {A A'} (f : A -> result A') l ys :
  comprehension f l = Ok ys <-> Forall2 (fun x y => f x = Ok y) l ys.
Proof.
  revert ys; induction l as [|x l IH]; intros ys; simpl.
  - split.
    + intros [= <-]. constructor.
    + intros H; inversion H; reflexivity.
  - split.
    + intros H. inv_bind H. inv_bind H. injection H as <-.
      constructor; [assumption | by apply IH].
    + intros H. inversion H as [|? y ? ys' Hx Hl]; subst.
      rewrite Hx. simpl. apply IH in Hl. rewrite Hl. reflexivity.
Qed.

Lemma comprehension_total {A A'} (f : A -> result A') l :
  (forall x, x ∈ l -> is_Ok (f x)) -> is_Ok (comprehension f l).
Proof.
  induction l as [|x l IH]; intros H; simpl.
  - by eexists.
  - destruct (H x) as [y Hy]; [left|]. rewrite Hy. simpl.
    destruct IH as [ys Hys]; [intros; apply H; by right|].
    rewrite Hys. by eexists.
Qed.

Lemma comprehension_app {A A'} (f : A -> result A') l1 l2 ys :
  comprehension f (l1 ++ l2) = Ok ys <->
  exists ys1 ys2, comprehension f l1 = Ok ys1 /\ comprehension f l2 = Ok ys2
                  /\ ys = ys1 ++ ys2.
Proof.
  rewrite comprehension_Forall2. split.
  - intros H. apply Forall2_app_inv_l in H as (k1 & k2 & H1 & H2 & ->).
    exists k1, k2. by rewrite !comprehension_Forall2.
  - intros (ys1 & ys2 & H1 & H2 & ->).
    apply Forall2_app; by apply comprehension_Forall2.
Qed.

(** ** Python lists *)

Lemma length_list_mul_singleton {A} (x : A) n :
  list_mul [x] n = replicate (Z.to_nat n) x.
Proof.
  unfold list_mul. induction (Z.to_nat n) as [|k IH]; simpl; [done|].
  by rewrite IH.
Qed.

Lemma getitem_Ok {A} (l : list A) i x :
  0 <= i -> getitem l i = Ok x <-> l !! Z.to_nat i = Some x.
Proof.
  intros Hi. unfold getitem.
  destruct (Z.ltb_spec i 0) as [?|_]; [lia|].
  destruct (Z.leb_spec 0 i) as [_|?]; [|lia]. simpl.
  destruct (Z.ltb_spec i (Z.of_nat (length l))) as [Hlt|Hge].
  - destruct (l !! Z.to_nat i) eqn:E; split; intros [=]; by subst.
  - split; [discriminate|]. intros H. apply lookup_lt_Some in H. lia.
Qed.

Lemma fmap_fst_enumerate_from {A} i (l : list A) :
  (enumerate_from i l).*1 = seqZ i (Z.of_nat (length l)).
Proof.
  revert i; induction l as [|x l IH]; intros i; simpl; [done|].
  rewrite IH, (seqZ_cons i) by lia. do 2 f_equal; lia.
Qed.

Lemma elem_of_enumerate_from {A} i (l : list A) k x :
  (k, x) ∈ enumerate_from i l <-> i <= k /\ l !! Z.to_nat (k - i) = Some x.
Proof.
  revert i; induction l as [|y l IH]; intros i; simpl.
  - rewrite elem_of_nil. split; [tauto|]. intros [_ H]. discriminate.
  - rewrite elem_of_cons, IH. split.
    + intros [[= -> ->]|[Hk Hx]].
      * split; [lia|]. by rewrite Z.sub_diag.
      * split; [lia|]. replace (Z.to_nat (k - i)) with (S (Z.to_nat (k - (i + 1)))) by lia.
        done.
    + intros [Hk Hx]. destruct (decide (k = i)) as [->|Hne].
      * left. rewrite Z.sub_diag in Hx. simpl in Hx. congruence.
      * right. split; [lia|].
        replace (Z.to_nat (k - i)) with (S (Z.to_nat (k - (i + 1)))) in Hx by lia.
        done.
Qed.

(** ** The order on strings *)

Lemma ascii_compare_refl c : Ascii.compare c c = Eq.
Proof. apply N.compare_refl. Qed.

Lemma string_compare_refl s : String.compare s s = Eq.
Proof. induction s as [|c s IH]; simpl; [done|]. by rewrite ascii_compare_refl. Qed.

Lemma string_compare_lt_trans s1 s2 s3 :
  String.compare s1 s2 = Lt -> String.compare s2 s3 = Lt ->
  String.compare s1 s3 = Lt.
Proof.
  revert s2 s3; induction s1 as [|a s1 IH]; intros [|b s2] [|c s3]; simpl;
    try congruence.
  destruct (Ascii.compare a b) eqn:Hab; try discriminate;
    destruct (Ascii.compare b c) eqn:Hbc; try discriminate; intros H1 H2.
  - apply Ascii.compare_eq_iff in Hab, Hbc. subst.
    rewrite ascii_compare_refl. eauto.
  - apply Ascii.compare_eq_iff in Hab. subst. by rewrite Hbc.
  - apply Ascii.compare_eq_iff in Hbc. subst. by rewrite Hab.
  - unfold Ascii.compare in *.
    rewrite N.compare_lt_iff in Hab, Hbc.
    assert ((N_of_ascii a ?= N_of_ascii c)%N = Lt) as ->; [|done].
    apply N.compare_lt_iff. lia.
Qed.

#[global] Instance str_le_total : Total str_le.
Proof. intros s1 s2. apply String.leb_total. Qed.

#[global] Instance str_le_antisym : AntiSymm (=) str_le.
Proof. intros s1 s2. apply String.leb_antisym. Qed.

#[global] Instance str_le_trans : Transitive str_le.
Proof.
  intros s1 s2 s3. unfold str_le, String.leb.
  destruct (String.compare s1 s2) eqn:H12; try discriminate;
    destruct (String.compare s2 s3) eqn:H23; try discriminate; intros _ _.
  - apply String.compare_eq_iff in H12, H23. subst.
    by rewrite string_compare_refl.
  - apply String.compare_eq_iff in H12. subst. by rewrite H23.
  - apply String.compare_eq_iff in H23. subst. by rewrite H12.
  - by rewrite (string_compare_lt_trans _ _ _ H12 H23).
Qed.

(** ** Dicts *)

Lemma dict_of_snoc `{Countable K} {V} (l : list (K * V)) kv :
  dict_of (l ++ [kv]) = <[kv.1 := kv.2]> (dict_of l).
Proof. unfold dict_of. by rewrite foldl_app. Qed.

Lemma dict_of_list_to_map `{Countable K} {V} (l : list (K * V)) :
  dict_of l = list_to_map (reverse l).
Proof.
  induction l as [|kv l IH] using rev_ind; [done|].
  rewrite dict_of_snoc, reverse_snoc, IH. by destruct kv.
Qed.

Lemma lookup_dict_of `{Countable K} {V} (l : list (K * V)) k v :
  NoDup l.*1 -> dict_of l !! k = Some v <-> (k, v) ∈ l.
Proof.
  intros Hl. rewrite dict_of_list_to_map, <- elem_of_list_to_map.
  - by rewrite elem_of_reverse.
  - by rewrite fmap_reverse, reverse_Permutation.
Qed.

(** ** The label encoding (lines 23 to 29) *)

Lemma lang_list_Permutation lang :
  lang_list lang ≡ₚ elements (list_to_set lang : gset string).
Proof. apply merge_sort_Permutation. Qed.

Lemma lang_list_NoDup lang : NoDup (lang_list lang).
Proof. rewrite lang_list_Permutation. apply NoDup_elements. Qed.

Lemma elem_of_lang_list lang l : l ∈ lang_list lang <-> l ∈ lang.
Proof.
  rewrite lang_list_Permutation, elem_of_elements. apply elem_of_list_to_set.
Qed.

Lemma lang_list_sorted lang : StronglySorted str_le (lang_list lang).
Proof. apply (StronglySorted_merge_sort _). Qed.

Lemma lookup_lang_dict lang i l :
  lang_dict lang !! i = Some l
  <-> 0 <= i /\ lang_list lang !! Z.to_nat i = Some l.
Proof.
  unfold lang_dict, enumerate. rewrite lookup_dict_of.
  - by rewrite elem_of_enumerate_from, Z.sub_0_r.
  - rewrite fmap_fst_enumerate_from. apply NoDup_seqZ.
Qed.

Lemma lang_dict_inj lang i j l :
  lang_dict lang !! i = Some l -> lang_dict lang !! j = Some l -> i = j.
Proof.
  rewrite !lookup_lang_dict. intros [Hi Hl] [Hj Hl'].
  pose proof (NoDup_lookup _ _ _ _ (lang_list_NoDup lang) Hl Hl'). lia.
Qed.

Lemma lookup_lang_rev_dict lang l i :
  lang_rev_dict lang !! l = Some i <-> lang_dict lang !! i = Some l.
Proof.
  unfold lang_rev_dict, items. rewrite lookup_dict_of.
  - rewrite list_elem_of_fmap. split.
    + intros ([j l'] & [= -> ->] & Hm). by apply elem_of_map_to_list.
    + intros Hm. exists (i, l). split; [done|]. by apply elem_of_map_to_list.
  - rewrite <- list_fmap_compose.
    apply NoDup_fmap_2_strong; [|apply NoDup_map_to_list].
    intros [j1 l1] [j2 l2] H1 H2; simpl. intros <-.
    apply elem_of_map_to_list in H1, H2.
    by rewrite (lang_dict_inj _ _ _ _ H1 H2).
Qed.

Lemma label_Forall2 lang :
  exists lab, label lang = Ok lab
    /\ Forall2 (fun l n => lang_dict lang !! n = Some l) lang lab.
Proof.
  destruct (comprehension_total (dict_get (lang_rev_dict lang)) lang)
    as [lab Hlab].
  - intros l Hl. apply elem_of_lang_list in Hl.
    apply list_elem_of_lookup in Hl as [i Hi].
    assert (lang_rev_dict lang !! l = Some (Z.of_nat i)) as Hr.
    { apply lookup_lang_rev_dict, lookup_lang_dict.
      split; [lia|]. by rewrite Nat2Z.id. }
    unfold dict_get. rewrite Hr. by eexists.
  - exists lab. split; [done|].
    apply comprehension_Forall2 in Hlab.
    eapply Forall2_impl; [exact Hlab|]. intros l n. unfold dict_get.
    destruct (lang_rev_dict lang !! l) eqn:E; [|discriminate].
    intros [= ->]. by apply lookup_lang_rev_dict.
Qed.

(** ** The loop over the files (lines 35 to 44) *)

Lemma foldl_append_rows (ml vs : Z) (lines : list string) samples :
  foldl (fun samples ln =>
           samples ++ [Seq (padded ml vs (PyStr <$> split ln))]) samples lines
  = samples ++ ((fun ln => Seq (padded ml vs (PyStr <$> split ln))) <$> lines).
Proof.
  revert samples; induction lines as [|ln lines IH]; intros samples; simpl.
  - by rewrite app_nil_r.
  - rewrite IH. by rewrite <- app_assoc.
Qed.

Lemma drop_lookup_cons {A} (l : list A) i x :
  l !! i = Some x -> drop i l = x :: drop (S i) l.
Proof.
  revert i; induction l as [|y l IH]; intros [|i]; simpl; try done.
  - by intros [= ->].
  - apply IH.
Qed.

Lemma for_each_read_file_lines fs file_dir ml vs enc files i
    samples ll samples' ll' :
  0 <= i ->
  for_each (read_file fs file_dir ml vs true enc) (enumerate_from i files)
           (samples, ll) = Ok (samples', ll') ->
  exists liness : list (list string),
    Forall2 (fun fl lines => readlines fs (join file_dir fl) = Ok lines)
            files liness
    /\ length (take (length files) (drop (Z.to_nat i) enc)) = length files
    /\ samples' = samples ++ concat
         ((fun lines : list string =>
             (fun ln : string => Seq (padded ml vs (PyStr <$> split ln)))
               <$> lines)
            <$> liness)
    /\ ll' = ll ++ concat
         (zip_with (fun li (lines : list string) => replicate (length lines) li)
                   (take (length files) (drop (Z.to_nat i) enc)) liness).
Proof.
  revert i samples ll; induction files as [|fl files IH];
    intros i samples ll Hi; simpl.
  - intros [= <- <-]. exists []. rewrite !app_nil_r. by repeat constructor.
  - intros H. inv_bind H. unfold read_file in Ha.
    inv_bind Ha. rename a0 into lines. inv_bind Ha. rename a0 into li.
    injection Ha as <-. apply getitem_Ok in Ha1; [|done].
    apply IH in H as (liness & Hread & Hlen & -> & ->); [|lia].
    replace (Z.to_nat (i + 1)) with (S (Z.to_nat i)) in * by lia.
    exists (lines :: liness).
    rewrite (drop_lookup_cons _ _ _ Ha1). simpl.
    rewrite foldl_append_rows, length_list_mul_singleton, Nat2Z.id, Hlen.
    rewrite <- !app_assoc. by repeat split; [constructor|..].
Qed.

(** ** [np.array] on rows *)

Lemma np_array_rows iso (rs : list (list pyatom)) mat :
  np_array iso (Seq <$> rs) = Ok mat ->
  Forall2 (fun r row => comprehension (int64_of iso) r = Ok row) rs (rows mat).
Proof.
  destruct rs as [|r rs].
  - simpl. intros [= <-]. constructor.
  - change (Seq <$> r :: rs) with (Seq r :: (Seq <$> rs)).
    unfold np_array. destruct (forallb _ _); [|discriminate].
    intros H. inv_bind H. injection H as <-. simpl.
    change (Seq r :: (Seq <$> rs)) with (Seq <$> r :: rs) in Ha.
    apply comprehension_Forall2, Forall2_fmap_l in Ha.
    eapply Forall2_impl; [exact Ha|]. done.
Qed.

Lemma comprehension_pad iso (vs : Z) n pads :
  comprehension (int64_of iso) (replicate n (PyInt vs)) = Ok pads ->
  pads = replicate n vs.
Proof.
  revert pads; induction n as [|n IH]; intros pads; simpl.
  - by intros [= <-].
  - intros H. inv_bind H. inv_bind H. injection H as <-.
    unfold int64_of_int in Ha. destruct (_ && _); [|discriminate].
    injection Ha as <-. by rewrite (IH _ Ha0).
Qed.

Lemma take_min_length {A} (l : list A) n : take n l = take (n `min` length l) l.
Proof.
  destruct (Nat.le_ge_cases n (length l)) as [Hle|Hge].
  - by rewrite Nat.min_l.
  - rewrite Nat.min_r by done. by rewrite !take_ge.
Qed.

(** The row [np.array] makes of the padded sample of a line, when the
    maximal length is not negative. *)
Lemma padded_row iso ml vs (ln : string) row :
  0 <= ml ->
  comprehension (int64_of iso) (padded ml vs (PyStr <$> split ln)) = Ok row ->
  length row = Z.to_nat ml
  /\ exists vals,
      Forall2 (fun t v => iso t = Ok v)
        (take (Z.to_nat ml `min` length (split ln)) (split ln)) vals
      /\ row = vals ++ replicate
                 (Z.to_nat (ml - Z.of_nat (length (split ln)))) vs.
Proof.
  intros Hml. unfold padded, slice_to.
  destruct (Z.leb_spec 0 ml) as [_|?]; [|lia].
  rewrite length_list_mul_singleton, length_fmap.
  intros H. apply comprehension_app in H as (vals & pads & Hv & Hp & ->).
  apply comprehension_pad in Hp as ->.
  apply comprehension_Forall2 in Hv.
  rewrite <- fmap_take, take_min_length in Hv. apply Forall2_fmap_l in Hv.
  split.
  - rewrite length_app, length_replicate, <- (Forall2_length _ _ _ Hv).
    rewrite length_take. lia.
  - exists vals. split; [|done].
    eapply Forall2_impl; [exact Hv|]. done.
Qed.

(** ** [read_data] *)

Lemma concat_fmap_fmap {A A'} (f : A -> A') (ls : list (list A)) :
  concat ((fun l : list A => f <$> l) <$> ls) = f <$> concat ls.
Proof.
  induction ls as [|l ls IH]; [done|].
  rewrite fmap_cons, !concat_cons, fmap_app. by f_equal.
Qed.

(** What a call with [line=True] that returns has read and built. *)
Lemma read_data_lines_inv iso fs file_dir label_file ml vs mat lab d :
  read_data iso fs file_dir label_file ml vs true = Ok (mat, lab, d) ->
  exists lang enc files (liness : list (list string)),
    read_csv_L1 fs label_file = Ok lang
    /\ label lang = Ok enc
    /\ listdir fs file_dir = Ok files
    /\ Forall2 (fun fl lines => readlines fs (join file_dir fl) = Ok lines)
               files liness
    /\ (length files <= length enc)%nat
    /\ d = lang_dict lang
    /\ lab = concat (zip_with
                       (fun li (lines : list string) =>
                          replicate (length lines) li) enc liness)
    /\ Forall2 (fun ln row =>
                  comprehension (int64_of iso)
                    (padded ml vs (PyStr <$> split ln)) = Ok row)
               (concat liness) (rows mat).
Proof.
  unfold read_data. intros H.
  inv_bind H. rename a into lang. inv_bind H. rename a into enc.
  inv_bind H. rename a into files. inv_bind H. destruct a as [samples ll].
  inv_bind H. injection H as <- <- <-.
  apply for_each_read_file_lines in Ha2 as (liness & Hread & Hlen & -> & ->);
    [|done].
  simpl in *. rewrite drop_0 in *.
  exists lang, enc, files, liness. repeat split; try done.
  - rewrite length_take in Hlen. lia.
  - rewrite (Forall2_length _ _ _ Hread), zip_with_take_l. done.
  - rewrite concat_fmap_fmap in Ha3.
    change (fun ln : string => Seq (padded ml vs (PyStr <$> split ln)))
      with (Seq ∘ (fun ln : string => padded ml vs (PyStr <$> split ln)))
      in Ha3.
    rewrite list_fmap_compose in Ha3. apply np_array_rows in Ha3.
    by apply Forall2_fmap_l in Ha3.
Qed.

(** What any call that returns has made of the label file. *)
Lemma read_data_label_inv iso fs file_dir label_file ml vs line mat lab d :
  read_data iso fs file_dir label_file ml vs line = Ok (mat, lab, d) ->
  exists lang enc,
    read_csv_L1 fs label_file = Ok lang
    /\ label lang = Ok enc
    /\ d = lang_dict lang
    /\ forall n, n ∈ lab -> n ∈ enc.
Proof.
  destruct line.
  - intros H.
    apply read_data_lines_inv in H
      as (lang & enc & files & liness & ? & ? & ? & ? & ? & ? & -> & ?).
    exists lang, enc. repeat split; try done.
    intros n Hn. apply list_elem_of_In, in_concat in Hn as (blk & Hblk & Hn).
    apply list_elem_of_In in Hblk, Hn.
    apply elem_of_lookup_zip_with in Hblk as (i & li & lines & -> & Hli & _).
    apply elem_of_replicate in Hn as [-> _].
    by eapply list_elem_of_lookup_2.
  - unfold read_data. intros H.
    inv_bind H. rename a into lang. inv_bind H. rename a into enc.
    inv_bind H. inv_bind H. destruct a0 as [samples ll].
    inv_bind H. injection H as <- <- <-.
    exists lang, enc. by repeat split.
Qed.

(** C1, as amended.  When [max_length] is not negative, a call of
    [read_data] with [line=True] that returns gives a matrix with one row
    per line of the files, in the order read; every row has exactly
    [max_length] entries: the values of the first
    [min(len(tokens), max_length)] tokens of the line, then
    [max_length - len(tokens)] copies of [vocab_size]. *)
Theorem read_data_rows_padded iso fs file_dir label_file max_length vocab_size
    mat lab d :
  0 <= max_length ->
  read_data iso fs file_dir label_file max_length vocab_size true
    = Ok (mat, lab, d) ->
  exists files (liness : list (list string)),
    listdir fs file_dir = Ok files
    /\ Forall2 (fun fl lines => readlines fs (join file_dir fl) = Ok lines)
               files liness
    /\ Forall2
         (fun ln row =>
            length row = Z.to_nat max_length
            /\ exists vals,
                Forall2 (fun t v => iso t = Ok v)
                  (take (Z.to_nat max_length `min` length (split ln))
                        (split ln)) vals
                /\ row = vals ++ replicate
                     (Z.to_nat (max_length - Z.of_nat (length (split ln))))
                     vocab_size)
         (concat liness) (rows mat).
Proof.
  intros Hml H.
  apply read_data_lines_inv in H
    as (lang & enc & files & liness & _ & _ & Hls & Hread & _ & _ & _ & Hrows).
  exists files, liness. repeat split; try done.
  eapply Forall2_impl; [exact Hrows|].
  intros ln row Hrow. by eapply padded_row.
Qed.


(** C9.  For the label file a call of [read_data] that returns has read:
    the dict returned enumerates the sorted distinct L1 values, it and the
    reverse dict are inverse to one another, every row of the label file
    is encoded by a number that the dict decodes to the row's L1 value,
    and every label returned is the number of such a row. *)
Theorem read_data_label_roundtrip iso fs file_dir label_file max_length
    vocab_size line mat lab d :
  read_data iso fs file_dir label_file max_length vocab_size line
    = Ok (mat, lab, d) ->
  exists lang enc,
    read_csv_L1 fs label_file = Ok lang
    /\ d = lang_dict lang
    /\ (StronglySorted str_le (lang_list lang)
        /\ NoDup (lang_list lang)
        /\ (forall l, l ∈ lang_list lang <-> l ∈ lang)
        /\ forall i l, d !! i = Some l
                       <-> 0 <= i /\ lang_list lang !! Z.to_nat i = Some l)
    /\ (forall i l, d !! i = Some l <-> lang_rev_dict lang !! l = Some i)
    /\ (label lang = Ok enc
        /\ forall k l, lang !! k = Some l ->
                       exists n, enc !! k = Some n /\ d !! n = Some l)
    /\ (forall n, n ∈ lab ->
                  exists k l, enc !! k = Some n /\ lang !! k = Some l
                              /\ d !! n = Some l).
Proof.
  intros H.
  apply read_data_label_inv in H as (lang & enc & Hcsv & Henc & -> & Hlab).
  destruct (label_Forall2 lang) as (enc' & Henc' & Hdec).
  rewrite Henc in Henc'. injection Henc' as <-.
  exists lang, enc. split; [done|]. split; [done|]. split; [|split; [|split]].
  - split; [apply lang_list_sorted|]. split; [apply lang_list_NoDup|].
    split; [apply elem_of_lang_list|]. apply lookup_lang_dict.
  - intros i l. by rewrite lookup_lang_rev_dict.
  - split; [done|]. intros k l Hk.
    destruct (Forall2_lookup_l _ _ _ _ _ Hdec Hk) as (n & Hn & Hd). eauto.
  - intros n Hn. apply Hlab, list_elem_of_lookup in Hn as [k Hk].
    destruct (Forall2_lookup_r _ _ _ _ _ Hdec Hk) as (l & Hl & Hd). eauto.
Qed.

Example read_data_example :
  read_data decimal example_fs "feat/train" "labels.csv" 3 9 true
  = Ok (Arr2 [[3; 1; 4]; [5; 9; 9]; [2; 7; 9]], [1; 1; 0],
        lang_dict ["KOR"; "ARA"; "KOR"]).
Proof. vm_compute. reflexivity. Qed.

(** A no-break space (U+00A0) and a next line (U+0085) separate tokens
    as a space does. *)
Example read_data_no_break_space :
  split (String "3" (String (ascii_of_N 160) "1")) = ["3"; "1"]
  /\ split (String "3" (String (ascii_of_N 133) "1")) = ["3"; "1"]
  /\ read_data decimal
       (one_line_fs (String "3" (String (ascii_of_N 160) "1"))) "train"
       "labels.csv" 5 9 true
     = Ok (Arr2 [[3; 1; 9; 9; 9]], [0], lang_dict ["KOR"]).
Proof. repeat split; vm_compute; reflexivity. Qed.

Lemma read_data_rows_padded_witness :
  exists files (liness : list (list string)),
    listdir example_fs "feat/train" = Ok files
    /\ Forall2 (fun fl lines =>
                  readlines example_fs (join "feat/train" fl) = Ok lines)
               files liness
    /\ Forall2
         (fun ln row =>
            length row = Z.to_nat 3
            /\ exists vals,
                Forall2 (fun t v => decimal t = Ok v)
                  (take (Z.to_nat 3 `min` length (split ln)) (split ln)) vals
                /\ row = vals ++ replicate
                     (Z.to_nat (3 - Z.of_nat (length (split ln)))) 9)
         (concat liness) (rows (Arr2 [[3; 1; 4]; [5; 9; 9]; [2; 7; 9]])).
Proof.
  apply (read_data_rows_padded decimal example_fs "feat/train" "labels.csv"
           3 9 _ [1; 1; 0] (lang_dict ["KOR"; "ARA"; "KOR"])).
  - lia.
  - vm_compute. reflexivity.
Defined.

(** C1 as stated fails for a negative [max_length]: the line [6 2 8] read
    with [max_length = -1] gives the row [6 2], of two entries. *)
Lemma read_data_negative_max_length :
  read_data decimal example_fs "feat/dev" "labels.csv" (-1) 9 true
  = Ok (Arr2 [[6; 2]], [1], lang_dict ["KOR"; "ARA"; "KOR"])
  /\ ~ Forall (fun row : list Z => Z.of_nat (length row) = -1)
         (rows (Arr2 [[6; 2]])).
Proof.
  split.
  - vm_compute. reflexivity.
  - intros H. apply Forall_cons_1 in H as [H _]. simpl in H. lia.
Qed.


Lemma read_data_label_roundtrip_witness :
  exists lang enc,
    read_csv_L1 example_fs "labels.csv" = Ok lang
    /\ lang_dict ["KOR"; "ARA"; "KOR"] = lang_dict lang
    /\ (StronglySorted str_le (lang_list lang)
        /\ NoDup (lang_list lang)
        /\ (forall l, l ∈ lang_list lang <-> l ∈ lang)
        /\ forall i l, lang_dict ["KOR"; "ARA"; "KOR"] !! i = Some l
                       <-> 0 <= i /\ lang_list lang !! Z.to_nat i = Some l)
    /\ (forall i l, lang_dict ["KOR"; "ARA"; "KOR"] !! i = Some l
                    <-> lang_rev_dict lang !! l = Some i)
    /\ (label lang = Ok enc
        /\ forall k l, lang !! k = Some l ->
             exists n, enc !! k = Some n
                       /\ lang_dict ["KOR"; "ARA"; "KOR"] !! n = Some l)
    /\ (forall n, n ∈ [1; 1; 0] ->
             exists k l, enc !! k = Some n /\ lang !! k = Some l
                         /\ lang_dict ["KOR"; "ARA"; "KOR"] !! n = Some l).
Proof.
  apply (read_data_label_roundtrip decimal example_fs "feat/train"
           "labels.csv" 3 9 true (Arr2 [[3; 1; 4]; [5; 9; 9]; [2; 7; 9]])).
  vm_compute. reflexivity.
Defined.

(** ** Computations that call the libraries *)

Lemma M_bind_Ok {B A A'} (m : M B A) (k : A -> M B A') st b st' :
  (m ≫= k) st = (Ok b, st')
  -> exists a st1, m st = (Ok a, st1) /\ k a st1 = (Ok b, st').
Proof.
  unfold mbind, M_bind, bind.
  destruct (m st) as [[a|e] st1]; [eauto | discriminate].
Qed.

Lemma M_bind_eval {B A A'} (m : M B A) (k : A -> M B A') st a st1 :
  m st = (Ok a, st1) -> (m ≫= k) st = k a st1.
Proof. unfold mbind, M_bind, bind. by intros ->. Qed.

Lemma M_bind_raise {B A A'} (m : M B A) (k : A -> M B A') st e st1 :
  m st = (Raise e, st1) -> (m ≫= k) st = (Raise e, st1).
Proof. unfold mbind, M_bind, bind. by intros ->. Qed.

Lemma saves_app {L} (t1 t2 : list (call L)) :
  saves (t1 ++ t2) = saves t1 ++ saves t2.
Proof. apply omap_app. Qed.

Lemma passes_app {L} (t1 t2 : list (call L)) :
  passes (t1 ++ t2) = (passes t1 + passes t2)%nat.
Proof. unfold passes. by rewrite omap_app, length_app. Qed.

Lemma losses_app {L} (t1 t2 : list (call L)) :
  losses (t1 ++ t2) = losses t1 ++ losses t2.
Proof. apply omap_app. Qed.

Lemma steps_app {L} (t1 t2 : list (call L)) :
  steps (t1 ++ t2) = (steps t1 + steps t2)%nat.
Proof. unfold steps. by rewrite omap_app, length_app. Qed.

(** ** The training step (lines 114 to 137) *)

Lemma train_batch_unclipped B a v x y st :
  truthy_float (args.clip_norm a) = false ->
  let w := effect B ModelTrain (world st) in
  let score := forward B w x in
  let l := criterion B score y in
  train_batch B a v (x, y) st
  = (Ok {| train_pred := train_pred v ++ argmax B score;
           train_y := train_y v ++ y;
           loss := Some l |},
     {| world := effect B OptimizerStep
                   (effect B (Backward l)
                      (effect B ZeroGrad
                         (effect B (Criterion y)
                            (effect B (ModelCall x) w))));
        trace := trace st ++ step_calls x y l |}).
Proof.
  intros Hclip. unfold train_batch, step_calls.
  rewrite Hclip. unfold mbind, M_bind, bind, do, observe, mret, M_ret, ret.
  simpl. by rewrite <- !app_assoc.
Qed.

Lemma train_batch_clipped B a v x y st :
  truthy_float (args.clip_norm a) = true ->
  let w := effect B ModelTrain (world st) in
  let l := criterion B (forward B w x) y in
  train_batch B a v (x, y) st
  = (Raise TypeError,
     {| world := effect B (Backward l)
                   (effect B ZeroGrad
                      (effect B (Criterion y)
                         (effect B (ModelCall x) w)));
        trace := trace st
                 ++ [ModelTrain; ModelCall x; Criterion y; ZeroGrad;
                     Backward l] |}).
Proof.
  intros Hclip. unfold train_batch.
  rewrite Hclip. unfold mbind, M_bind, bind, do, observe, clip_grad_norm, raise.
  simpl. by rewrite <- !app_assoc.
Qed.

(** ** Loops *)

Lemma loop_snoc {B A S} (body : S -> A -> M B S) l x s st :
  loop B body (l ++ [x]) s st
  = (loop B body l s ≫= fun s' => body s' x) st.
Proof.
  revert s st; induction l as [|z l IH]; intros s st; simpl.
  - unfold mbind, M_bind, bind, ret.
    by destruct (body s x st) as [[s'|e] st'].
  - unfold mbind, M_bind, bind in *.
    destruct (body s z st) as [[s'|e] st1]; [apply IH | done].
Qed.

(** The batch loop of one epoch, when it runs to its end. *)
Lemma batches_inv B a bs v st v' st' :
  loop B (train_batch B a) bs v st = (Ok v', st') ->
  exists t,
    trace st' = trace st ++ t
    /\ saves t = [] /\ passes t = 0%nat
    /\ length (losses t) = length bs
    /\ steps t = length bs
    /\ train_y v' = train_y v ++ concat (bs.*2)
    /\ loss v' = match last (losses t) with
                 | Some l => Some l
                 | None => loss v
                 end.
Proof.
  revert v st; induction bs as [|[x y] bs IH]; intros v st; cbn [loop].
  - intros [= <- <-]. exists []. by rewrite !app_nil_r.
  - intros H. apply M_bind_Ok in H as (v1 & st1 & Hb & H).
    destruct (truthy_float (args.clip_norm a)) eqn:Hclip.
    { by rewrite train_batch_clipped in Hb. }
    rewrite train_batch_unclipped in Hb by done.
    injection Hb as <- <-.
    apply IH in H as (t & Ht & Hs & Hp & Hl & Hst & Hy & Hloss).
    simpl in *.
    exists (step_calls x y
              (criterion B (forward B (effect B ModelTrain (world st)) x) y)
            ++ t).
    rewrite saves_app, passes_app, losses_app, steps_app, length_app.
    rewrite Hs, Hp, Hl, Hst, Ht, Hy, Hloss, <- !app_assoc. simpl.
    repeat split; try done.
    destruct (losses t) as [|l1 ls]; [done|].
    rewrite last_cons_cons.
    destruct (last (l1 :: ls)) eqn:E; [done|]. by apply last_None in E.
Qed.

(** The batch loop raises at its first mini-batch when the gradient is to
    be clipped. *)
Lemma batches_clipped B a x y bs v st :
  truthy_float (args.clip_norm a) = true ->
  exists st',
    loop B (train_batch B a) ((x, y) :: bs) v st = (Raise TypeError, st')
    /\ steps (trace st') = steps (trace st).
Proof.
  intros Hclip. cbn [loop]. eexists. split.
  - apply M_bind_raise. by apply train_batch_clipped.
  - simpl. rewrite steps_app. unfold steps at 2. simpl. lia.
Qed.

Lemma save_due_divide a ep :
  args.save_every a <> 0 ->
  save_due a ep = true
  <-> (args.save_every a | ep + 1) \/ ep = args.num_epochs a - 1.
Proof.
  intros Hs. unfold save_due.
  rewrite orb_true_iff, !Z.eqb_eq, Z.mod_divide by done. tauto.
Qed.

(** Lines 152 to 158. *)
Lemma save_model_state_inv B a sd ep st st' :
  save_model_state B a sd ep st = (Ok tt, st') ->
  trace st' = trace st
              ++ (if truthy_str sd && save_due a ep
                  then [Save (save_path (default "" sd) ep)] else [])
  /\ (truthy_str sd = true -> args.save_every a <> 0).
Proof.
  unfold save_model_state, save_due, py_mod.
  destruct (truthy_str sd); simpl.
  - unfold mbind, M_bind, bind, lift.
    destruct (args.save_every a =? 0) eqn:Hs; [discriminate|].
    apply Z.eqb_neq in Hs.
    destruct (((ep + 1) mod args.save_every a =? 0)
              || (ep =? args.num_epochs a - 1)).
    + unfold do. by intros [= <-].
    + unfold mret, M_ret, ret. intros [= <-]. by rewrite app_nil_r.
  - unfold mret, M_ret, ret. intros [= <-]. by rewrite app_nil_r.
Qed.

(** One epoch (lines 107 to 158), when it runs to its end. *)
Lemma epoch_inv B a sd ld vm vl v ep st v' st' :
  epoch B a sd ld vm vl v ep st = (Ok v', st') ->
  exists bv st1 l,
    loop B (train_batch B a) (iterate B (world st) ld)
         {| train_pred := []; train_y := []; loss := last_loss v |}
         {| world := effect B Iterate (world st);
            trace := trace st ++ [Iterate] |}
    = (Ok bv, st1)
    /\ loss bv = Some l
    /\ train_loss v' = train_loss v ++ [item B l]
    /\ train_f1 v' = train_f1 v ++ [f1_score B (train_y bv) (train_pred bv)]
    /\ val_f1 v'
       = val_f1 v
         ++ [f1_score B vl
               (argmax B (forward B (effect B ModelEval (world st1)) vm))]
    /\ last_loss v' = Some l
    /\ trace st'
       = trace st1
         ++ ModelEval :: ModelCall vm
            :: (if truthy_str sd && save_due a ep
                then [Save (save_path (default "" sd) ep)] else [])
    /\ (truthy_str sd = true -> args.save_every a <> 0).
Proof.
  unfold epoch. intros H.
  apply M_bind_Ok in H as (bs & st0 & Hbs & H).
  unfold observe in Hbs. injection Hbs as <- <-.
  apply M_bind_Ok in H as ([] & st0 & Hit & H).
  unfold do in Hit. injection Hit as <-.
  apply M_bind_Ok in H as (bv & st1 & Hloop & H).
  apply M_bind_Ok in H as (l & st2 & Hl & H).
  destruct (loss bv) as [l'|] eqn:Hloss; [|discriminate].
  injection Hl as <- <-.
  apply M_bind_Ok in H as ([] & st2 & He & H).
  unfold do in He. injection He as <-.
  apply M_bind_Ok in H as (vs & st3 & Hvs & H).
  unfold observe in Hvs. injection Hvs as <- <-.
  apply M_bind_Ok in H as ([] & st3 & Hc & H).
  unfold do in Hc. injection Hc as <-.
  apply M_bind_Ok in H as ([] & st4 & Hsave & H).
  injection H as <- <-.
  apply save_model_state_inv in Hsave as [Ht Hs]. simpl in *.
  exists bv, st1, l'. rewrite Ht, <- !app_assoc. by repeat split.
Qed.

(** The epoch loop (lines 102 to 160), when it runs to its end. *)
Lemma epochs_inv B a sd ld vm vl eps v st v' st' :
  loop B (epoch B a sd ld vm vl) eps v st = (Ok v', st') ->
  exists t,
    trace st' = trace st ++ t
    /\ passes t = length eps
    /\ saves t = (if truthy_str sd
                  then save_path (default "" sd) <$> List.filter (save_due a) eps
                  else [])
    /\ length (train_loss v') = (length (train_loss v) + length eps)%nat
    /\ length (train_f1 v') = (length (train_f1 v) + length eps)%nat
    /\ length (val_f1 v') = (length (val_f1 v) + length eps)%nat
    /\ (eps <> [] -> truthy_str sd = true -> args.save_every a <> 0).
Proof.
  revert v st; induction eps as [|ep eps IH]; intros v st; cbn [loop].
  - intros [= <- <-]. exists []. rewrite !app_nil_r. simpl.
    repeat split; try lia; try done. by destruct (truthy_str sd).
  - intros H. apply M_bind_Ok in H as (v1 & st1 & Hep & H).
    apply epoch_inv in Hep
      as (bv & st0 & l & Hloop & _ & Hl1 & Hl2 & Hl3 & _ & Ht1 & Hs).
    apply batches_inv in Hloop as (t0 & Ht0 & Hs0 & Hp0 & _).
    apply IH in H as (t & Ht & Hp & Hsv & H1 & H2 & H3 & _).
    simpl in Ht0. cbn [List.filter].
    destruct (truthy_str sd) eqn:Hsd; destruct (save_due a ep) eqn:Hdue;
      simpl in Ht1;
      (eexists; split;
       [rewrite Ht, Ht1, Ht0, <- !app_assoc; reflexivity|]);
      rewrite ?passes_app, ?saves_app, Hp, Hp0, Hs0, Hsv;
      rewrite H1, H2, H3, Hl1, Hl2, Hl3, !length_app; simpl;
      repeat split; try lia; try done.
Qed.

(** [train], when it runs to its end. *)
Lemma train_inv B fs a sd st r st' :
  train B fs a sd st = (Ok r, st') ->
  exists t,
    trace st' = trace st ++ t
    /\ passes t = Z.to_nat (args.num_epochs a)
    /\ saves t = (if truthy_str sd
                  then save_path (default "" sd)
                         <$> List.filter (save_due a) (range (args.num_epochs a))
                  else [])
    /\ length r.1.1 = Z.to_nat (args.num_epochs a)
    /\ length r.1.2 = Z.to_nat (args.num_epochs a)
    /\ length r.2 = Z.to_nat (args.num_epochs a)
    /\ (1 <= args.num_epochs a -> truthy_str sd = true
        -> args.save_every a <> 0).
Proof.
  unfold train. intros H.
  apply M_bind_Ok in H as (dicts & st0 & Hd & H).
  unfold lift in Hd. injection Hd as Hd <-.
  apply M_bind_Ok in H as ([[mat lab] ld] & st0 & Hr & H).
  unfold lift in Hr. injection Hr as Hr <-.
  apply M_bind_Ok in H as ([[[tm vm] tl] vl] & st0 & Hsp & H).
  injection Hsp as Hsp <-.
  apply M_bind_Ok in H as ([] & st0 & Hc & H).
  unfold do in Hc. injection Hc as <-.
  apply M_bind_Ok in H as ([] & st0 & Hc & H).
  unfold do in Hc. injection Hc as <-.
  apply M_bind_Ok in H as ([] & st0 & Hc & H).
  unfold optim_Adam, do in Hc. injection Hc as <-.
  apply M_bind_Ok in H as ([] & st0 & Hc & H).
  unfold do in Hc. injection Hc as <-.
  apply M_bind_Ok in H as (loader & st0 & Hld & H).
  unfold lift in Hld. injection Hld as Hld <-.
  apply M_bind_Ok in H as ([] & st0 & Hc & H).
  unfold do in Hc. injection Hc as <-.
  unfold train_epochs in H.
  apply M_bind_Ok in H as (v & st1 & Hloop & H).
  injection H as <- <-.
  apply epochs_inv in Hloop as (t & Ht & Hp & Hs & H1 & H2 & H3 & Hse).
  simpl in *. unfold range in *. rewrite length_seqZ in *.
  eexists. split.
  { rewrite Ht, <- !app_assoc. reflexivity. }
  rewrite !passes_app, !saves_app, Hp, Hs. simpl.
  repeat split; try done.
  intros Hn. apply Hse. destruct (seqZ 0 (args.num_epochs a)) eqn:E; [|done].
  apply (f_equal length) in E. rewrite length_seqZ in E. simpl in E. lia.
Qed.

(** ** Checkpoints *)




(** ** The training step and the gradient clipping *)

(** C2: the training step computes the score and the loss, zeroes the
    gradients and backpropagates the loss, in this order.  Where
    [args.clip_norm] is not set, the optimizer step follows.  Where it is
    set, line 132 hands the method [nlcnn_model.parameters] itself to
    [clip_grad_norm], which raises TypeError: the gradient is not clipped
    and the optimizer step is never applied. *)
Theorem train_step_order B a v x y st :
  let l := criterion B (forward B (effect B ModelTrain (world st)) x) y in
  let out := train_batch B a v (x, y) st in
  if truthy_float (args.clip_norm a)
  then out.1 = Raise TypeError
       /\ trace out.2
          = trace st
            ++ [ModelTrain; ModelCall x; Criterion y; ZeroGrad; Backward l]
       /\ steps (trace out.2) = steps (trace st)
  else is_Ok out.1
       /\ trace out.2
          = trace st
            ++ [ModelTrain; ModelCall x; Criterion y; ZeroGrad; Backward l;
                OptimizerStep]
       /\ steps (trace out.2) = S (steps (trace st)).
Proof.
  intros l out. subst out.
  destruct (truthy_float (args.clip_norm a)) eqn:Hclip.
  - rewrite train_batch_clipped by done. simpl.
    repeat split. rewrite steps_app. unfold steps at 2. simpl. lia.
  - rewrite train_batch_unclipped by done. simpl.
    repeat split; [by eexists|]. rewrite steps_app. unfold steps at 2.
    simpl. lia.
Qed.

(** A run with [--clip-norm 1.0]: TypeError at the first mini-batch, no
    optimizer step, no checkpoint. *)
Example train_clip_norm_example :
  (train toy example_fs (example_run (Some 1%float) 2 "labels.csv")
         (Some "model/run") start).1
  = Raise TypeError
  /\ steps (trace (train toy example_fs
                         (example_run (Some 1%float) 2 "labels.csv")
                         (Some "model/run") start).2)
     = 0%nat
  /\ saves (trace (train toy example_fs
                         (example_run (Some 1%float) 2 "labels.csv")
                         (Some "model/run") start).2)
     = [].
Proof. repeat split; vm_compute; reflexivity. Qed.

(** ** Inputs that cannot be read *)

Lemma getitem_in_range {A} (l : list A) i :
  0 <= i < Z.of_nat (length l) -> exists x, getitem l i = Ok x.
Proof.
  intros Hi. unfold getitem.
  destruct (i <? 0) eqn:E1; [lia|].
  destruct ((0 <=? i) && (i <? Z.of_nat (length l))) eqn:E2.
  - destruct (l !! Z.to_nat i) as [x|] eqn:E3; [by eexists|].
    apply lookup_ge_None in E3. lia.
  - apply andb_false_iff in E2 as [E2|E2]; lia.
Qed.

Lemma for_each_read_file_raise fs file_dir ml vs enc files fl files' liness
    i st e :
  0 <= i ->
  i + Z.of_nat (length files) <= Z.of_nat (length enc) ->
  Forall2 (fun f lines => readlines fs (join file_dir f) = Ok lines)
          files liness ->
  readlines fs (join file_dir fl) = Raise e ->
  for_each (read_file fs file_dir ml vs true enc)
           (enumerate_from i (files ++ fl :: files')) st = Raise e.
Proof.
  intros Hi Hlen Hread Hfl.
  revert i st Hi Hlen.
  induction Hread as [|f lines files liness Hf Hread IH];
    intros i [samples ll] Hi Hlen; simpl.
  - by rewrite Hfl.
  - rewrite Hf. simpl. simpl in Hlen.
    destruct (getitem_in_range enc i) as [li ->]; [lia|]. simpl.
    apply IH; lia.
Qed.

Lemma read_data_raise iso fs a e dicts vs :
  pickle_load fs (join (args.feature_dir a) "dict.pkl") = Ok dicts ->
  load_failure fs a e ->
  read_data iso fs (join (args.feature_dir a) "train") (args.label a)
            (args.max_length a) vs true = Raise e.
Proof.
  intros Hd H. unfold read_data.
  destruct H as [H|? _ H|? lang _ Hl H|? lang files fl files' liness _ Hl Hf Hr Hn H].
  - congruence.
  - by rewrite H.
  - rewrite Hl. simpl.
    destruct (label_Forall2 lang) as (lab & -> & _). simpl. by rewrite H.
  - rewrite Hl. simpl.
    destruct (label_Forall2 lang) as (lab & -> & Hlab). simpl.
    rewrite Hf. simpl. unfold enumerate.
    apply Forall2_length in Hlab.
    rewrite (for_each_read_file_raise _ _ _ _ _ _ _ _ liness _ _ e);
      [done|lia|lia|done|done].
Qed.

(** C7: if loading an input fails with an exception, the pickle of the
    feature dictionary, the label file, the listing of the train directory
    or one of its files, [train] raises this exception, and it has called
    none of the libraries by then: no checkpoint is written. *)
Theorem train_load_failure B fs a save_dir st e :
  load_failure fs a e ->
  exists st',
    train B fs a save_dir st = (Raise e, st')
    /\ trace st' = trace st
    /\ saves (trace st') = saves (trace st).
Proof.
  intros H. exists st. split; [|done].
  unfold train.
  destruct (pickle_load fs (join (args.feature_dir a) "dict.pkl"))
    as [dicts|e'] eqn:Hd.
  - rewrite (M_bind_eval _ _ st dicts st) by done.
    apply M_bind_raise. unfold lift.
    by rewrite (read_data_raise _ _ _ e dicts).
  - apply M_bind_raise. unfold lift.
    destruct H; congruence.
Qed.

Lemma train_load_failure_witness :
  exists st',
    train toy (unreadable "feat/train/b.txt" example_fs) example_args
          (Some "model/run") start
    = (Raise (OSError "feat/train/b.txt"), st')
    /\ trace st' = trace start
    /\ saves (trace st') = saves (trace start).
Proof.
  apply (train_load_failure toy (unreadable "feat/train/b.txt" example_fs)
           example_args (Some "model/run") start).
  apply (file_fails _ _ _
           (dict_of [(0, "a b"); (1, "b c"); (2, "c d")],
            dict_of [("a b", 0); ("b c", 1); ("c d", 2)])
           ["KOR"; "ARA"; "KOR"] ["a.txt"] "b.txt" []
           [["3 1 4 1
"; "5
"]]).
  - vm_compute; reflexivity.
  - vm_compute; reflexivity.
  - vm_compute; reflexivity.
  - repeat constructor.
  - simpl; lia.
  - vm_compute; reflexivity.
Defined.

(** ** The loss recorded for an epoch *)

(** C10: where the pass of an epoch ends with the mini-batch [(x, y)], the
    value appended to [train_loss] is the loss of that one mini-batch,
    computed by the model as the mini-batches before it have left it; the
    losses of the other mini-batches of the epoch do not enter it. *)
Theorem epoch_records_last_batch_loss B a save_dir loader val_mat val_label
    v ep st v' st' bs x y :
  iterate B (world st) loader = bs ++ [(x, y)] ->
  epoch B a save_dir loader val_mat val_label v ep st = (Ok v', st') ->
  exists bv1 st1,
    loop B (train_batch B a) bs
         {| train_pred := []; train_y := []; loss := last_loss v |}
         {| world := effect B Iterate (world st);
            trace := trace st ++ [Iterate] |}
    = (Ok bv1, st1)
    /\ train_loss v'
       = train_loss v
         ++ [item B (criterion B
                       (forward B (effect B ModelTrain (world st1)) x) y)].
Proof.
  intros Hbs H.
  apply epoch_inv in H as (bv & st2 & l & Hloop & Hl & Hloss & _).
  rewrite Hbs, loop_snoc in Hloop.
  apply M_bind_Ok in Hloop as (bv1 & st1 & Hloop & Hlast).
  exists bv1, st1. split; [done|].
  destruct (truthy_float (args.clip_norm a)) eqn:Hclip.
  { by rewrite train_batch_clipped in Hlast. }
  rewrite train_batch_unclipped in Hlast by done.
  injection Hlast as <- <-. simpl in Hl. injection Hl as <-. done.
Qed.

Lemma epoch_records_last_batch_loss_witness :
  exists v' st',
    epoch toy example_args None example_loader (Arr2 [[3; 1; 4]]) [1]
          {| train_loss := []; train_f1 := []; val_f1 := [];
             last_loss := None |} 0 start
    = (Ok v', st')
    /\ losses (trace st') = [12; 23]
    /\ train_loss v' = [23%float].
Proof.
  assert (succeeded
            (epoch toy example_args None example_loader (Arr2 [[3; 1; 4]])
                   [1]
                   {| train_loss := []; train_f1 := []; val_f1 := [];
                      last_loss := None |} 0 start).1
          = true
          /\ losses
               (trace
                  (epoch toy example_args None example_loader
                         (Arr2 [[3; 1; 4]]) [1]
                         {| train_loss := []; train_f1 := []; val_f1 := [];
                            last_loss := None |} 0 start).2)
             = [12; 23]) as Hok by (split; vm_compute; reflexivity).
  revert Hok.
  destruct (epoch toy example_args None example_loader (Arr2 [[3; 1; 4]]) [1]
              {| train_loss := []; train_f1 := []; val_f1 := [];
                 last_loss := None |} 0 start)
    as [[v'|e] st'] eqn:E; intros [Hok Hlosses]; [|discriminate Hok].
  exists v', st'. split; [reflexivity|]. split; [exact Hlosses|].
  assert (iterate toy (world start) example_loader
          = [(Arr2 [[2; 7; 3]], [0])] ++ [(Arr2 [[5; 9; 9]], [1])]) as Hit
    by (vm_compute; reflexivity).
  destruct (epoch_records_last_batch_loss toy example_args None
              example_loader (Arr2 [[3; 1; 4]]) [1]
              {| train_loss := []; train_f1 := []; val_f1 := [];
                 last_loss := None |} 0 start v' st'
              [(Arr2 [[2; 7; 3]], [0])] (Arr2 [[5; 9; 9]]) [1] Hit E)
    as (bv1 & st1 & Hloop & Hl).
  rewrite Hl.
  apply (f_equal snd) in Hloop. cbn [snd] in Hloop. rewrite <- Hloop.
  vm_compute. reflexivity.
Defined.

(** ** Runs that reach their end *)

(** The epoch loop, when it runs to its end: what each epoch has
    appended. *)
Lemma epochs_runs B a sd ld vm vl eps v st v' st' :
  loop B (epoch B a sd ld vm vl) eps v st = (Ok v', st') ->
  exists (runs : list (epoch_run B)) xs ys zs,
    length runs = length eps
    /\ train_loss v' = train_loss v ++ xs
    /\ train_f1 v' = train_f1 v ++ ys
    /\ val_f1 v' = val_f1 v ++ zs
    /\ Forall (ran_batch_loop B a ld) runs
    /\ Forall2 (fun r x => exists l, loss (batch_loop r) = Some l
                                     /\ x = item B l) runs xs
    /\ Forall2 (fun r y => y = f1_score B (train_y (batch_loop r))
                                      (train_pred (batch_loop r))) runs ys
    /\ Forall2 (fun r z =>
                  z = f1_score B vl
                        (argmax B (forward B (effect B ModelEval
                                                (world (trained r))) vm)))
               runs zs.
Proof.
  revert v st; induction eps as [|ep eps IH]; intros v st; cbn [loop].
  - intros [= <- <-]. exists [], [], [], []. rewrite !app_nil_r.
    by repeat split; constructor.
  - intros H. apply M_bind_Ok in H as (v1 & st1 & Hep & H).
    apply epoch_inv in Hep
      as (bv & st0 & l & Hloop & Hl & Hl1 & Hl2 & Hl3 & _ & _ & _).
    apply IH in H
      as (runs & xs & ys & zs & Hlen & H1 & H2 & H3 & Hran & Hx & Hy & Hz).
    exists ({| started := st; loss_before := last_loss v;
               batch_loop := bv; trained := st0 |} :: runs),
      (item B l :: xs),
      (f1_score B (train_y bv) (train_pred bv) :: ys),
      (f1_score B vl
         (argmax B (forward B (effect B ModelEval (world st0)) vm)) :: zs).
    rewrite H1, H2, H3, Hl1, Hl2, Hl3, <- !app_assoc. simpl.
    repeat split; try done.
    + by rewrite Hlen.
    + by constructor.
    + constructor; [|done]. by exists l.
    + by constructor.
    + by constructor.
Qed.

(** [train], when it runs to its end: what it has loaded and built, and
    the epoch loop it has run. *)
Lemma train_Ok_inv B fs a sd st r st' :
  train B fs a sd st = (Ok r, st') ->
  exists dicts mat lab ld tm vm tl vl loader st0 v,
    pickle_load fs (join (args.feature_dir a) "dict.pkl") = Ok dicts
    /\ read_data (int64_of_str B) fs (join (args.feature_dir a) "train")
                 (args.label a) (args.max_length a)
                 (Z.of_nat (size dicts.1)) true
       = Ok (mat, lab, ld)
    /\ train_test_split B (world st) mat lab (args.val_split a)
       = Ok (tm, vm, tl, vl)
    /\ data_loader B tm tl (args.batch_size a) = Ok loader
    /\ loop B (epoch B a sd loader vm vl) (range (args.num_epochs a))
            {| train_loss := []; train_f1 := []; val_f1 := [];
               last_loss := None |} st0
       = (Ok v, st')
    /\ r = (train_loss v, train_f1 v, val_f1 v).
Proof.
  unfold train. intros H.
  apply M_bind_Ok in H as (dicts & st0 & Hd & H).
  unfold lift in Hd. injection Hd as Hd <-.
  apply M_bind_Ok in H as ([[mat lab] ld] & st0 & Hr & H).
  unfold lift in Hr. injection Hr as Hr <-.
  apply M_bind_Ok in H as ([[[tm vm] tl] vl] & st0 & Hsp & H).
  injection Hsp as Hsp <-.
  apply M_bind_Ok in H as ([] & st0 & _ & H).
  apply M_bind_Ok in H as ([] & st1 & _ & H).
  apply M_bind_Ok in H as ([] & st2 & _ & H).
  apply M_bind_Ok in H as ([] & st3 & _ & H).
  apply M_bind_Ok in H as (loader & st4 & Hld & H).
  unfold lift in Hld. injection Hld as Hld <-.
  apply M_bind_Ok in H as ([] & st5 & _ & H).
  unfold train_epochs in H.
  apply M_bind_Ok in H as (v & st6 & Hloop & H).
  injection H as <- <-.
  by exists dicts, mat, lab, ld, tm, vm, tl, vl, loader, st5, v.
Qed.




(** ** Mini-batches *)

Lemma omap_lookup_seq {A} (l : list A) :
  omap (fun i => l !! i) (seq 0 (length l)) = l.
Proof.
  induction l as [|x l IH] using rev_ind; [done|].
  rewrite length_app. simpl. rewrite Nat.add_1_r, seq_S, omap_app. simpl.
  rewrite (list_lookup_middle l [] x (length l) eq_refl). simpl.
  f_equal. etrans; [|exact IH].
  apply list_omap_ext, Forall_Forall2_diag, Forall_forall.
  intros i Hi. apply elem_of_seq in Hi. apply lookup_app_l. lia.
Qed.

Lemma shuffled_Permutation {A} (order : list nat) (l : list A) :
  order ≡ₚ seq 0 (length l) -> shuffled order l ≡ₚ l.
Proof.
  intros H. unfold shuffled. rewrite H. by rewrite omap_lookup_seq.
Qed.

Lemma concat_batched {A} fuel n (l : list A) :
  (0 < n)%nat -> (length l <= fuel)%nat -> concat (batched fuel n l) = l.
Proof.
  intros Hn. revert l; induction fuel as [|fuel IH]; intros l Hl; simpl.
  - destruct l; [done | simpl in Hl; lia].
  - destruct l as [|x l]; [done|].
    rewrite concat_cons, IH, take_drop; [done|].
    rewrite length_drop. simpl in *. lia.
Qed.

Lemma batched_nil {A} fuel n : @batched A fuel n [] = [].
Proof. by destruct fuel. Qed.

Lemma batched_sizes {A} fuel n (l : list A) i b :
  (0 < n)%nat -> (length l <= fuel)%nat ->
  batched fuel n l !! i = Some b ->
  (0 < length b <= n)%nat
  /\ (S i < length (batched fuel n l) -> length b = n)%nat.
Proof.
  intros Hn. revert l i; induction fuel as [|fuel IH]; intros l i Hl; simpl.
  - done.
  - destruct l as [|x l]; [done|].
    assert (length (drop n (x :: l)) <= fuel)%nat as Hd.
    { rewrite length_drop. simpl in *. lia. }
    destruct i as [|i]; simpl.
    + intros [= <-]. rewrite length_take. simpl. split; [lia|].
      intros Hlen.
      destruct (drop n (x :: l)) as [|z l'] eqn:E.
      { rewrite batched_nil in Hlen. simpl in Hlen. lia. }
      apply (f_equal length) in E. rewrite length_drop in E.
      simpl in E. lia.
    + intros Hb. destruct (IH _ _ Hd Hb) as [H1 H2].
      split; [done|]. intros Hlen. apply H2. lia.
Qed.

(** The mini-batches of one pass of the loader as the spec has it, for a
    draw that is a permutation of the positions. *)
Lemma spec_iterate_partition B randperm a mat label loader w :
  data_loader (with_spec_loader B randperm) mat label (args.batch_size a)
  = Ok loader ->
  randperm w (length (rows mat)) ≡ₚ seq 0 (length (rows mat)) ->
  let B' := with_spec_loader B randperm in
  let batches := iterate B' w loader in
  concat ((fun b : ndarray * list Z => zip (rows b.1) b.2) <$> batches)
    ≡ₚ zip (rows mat) label
  /\ (forall i b,
        batches !! i = Some b ->
        length (rows b.1) = length b.2
        /\ 0 < Z.of_nat (length b.2) <= args.batch_size a
        /\ ((S i < length batches)%nat
            -> Z.of_nat (length b.2) = args.batch_size a))
  /\ concat batches.*2 ≡ₚ label.
Proof.
  intros Hld Hperm B' batches. simpl in Hld. unfold spec_data_loader in Hld.
  destruct (Nat.eqb (length (rows mat)) (length label)) eqn:Hlen;
    [|discriminate].
  apply Nat.eqb_eq in Hlen.
  destruct (0 <? args.batch_size a) eqn:Hbs; [|discriminate].
  apply Z.ltb_lt in Hbs. injection Hld as <-.
  subst batches. simpl. unfold spec_iterate. simpl.
  assert (length (zip (rows mat) label) = length (rows mat)) as Hz.
  { rewrite length_zip. lia. }
  rewrite Hz.
  set (samples := shuffled (randperm w (length (rows mat)))
                           (zip (rows mat) label)).
  assert (samples ≡ₚ zip (rows mat) label) as Hsamples.
  { apply shuffled_Permutation. by rewrite Hz. }
  set (n := Z.to_nat (args.batch_size a)).
  assert (0 < n)%nat as Hn by lia.
  assert (concat (mini_batches n samples) = samples) as Hcat.
  { by apply concat_batched. }
  assert (concat ((fun b : list (list Z * Z) => (Arr2 b.*1, b.*2))
                    <$> mini_batches n samples).*2
          ≡ₚ label) as Hlab.
  { rewrite <- list_fmap_compose.
    change (snd ∘ (fun b : list (list Z * Z) => (Arr2 b.*1, b.*2)))
      with (fun b : list (list Z * Z) => snd <$> b).
    rewrite concat_fmap_fmap, Hcat, Hsamples. rewrite snd_zip; [done|lia]. }
  split; [|split].
  - rewrite <- list_fmap_compose.
    rewrite (list_fmap_ext _ id (mini_batches n samples))
      by (intros i b0 _; apply zip_fst_snd).
    by rewrite list_fmap_id, Hcat.
  - intros i b Hb. rewrite list_lookup_fmap in Hb.
    destruct (mini_batches n samples !! i) as [b0|] eqn:Hb0; [|done].
    injection Hb as <-. simpl. rewrite !length_fmap.
    destruct (batched_sizes _ _ _ _ _ Hn (le_n _) Hb0) as [H1 H2].
    split; [done|]. split; [lia|].
    intros Hi.
    unfold mini_batches in H2. specialize (H2 Hi). lia.
  - exact Hlab.
Qed.


Lemma model_inputs_app {L} (t1 t2 : list (call L)) :
  model_inputs (t1 ++ t2) = model_inputs t1 ++ model_inputs t2.
Proof. apply omap_app. Qed.

Lemma criterion_labels_app {L} (t1 t2 : list (call L)) :
  criterion_labels (t1 ++ t2) = criterion_labels t1 ++ criterion_labels t2.
Proof. apply omap_app. Qed.

(** The batch loop, when it runs to its end, has run the model and the
    criterion on each mini-batch, once, in the order of the pass. *)
Lemma batches_calls B a bs v st v' st' :
  loop B (train_batch B a) bs v st = (Ok v', st') ->
  exists t,
    trace st' = trace st ++ t
    /\ model_inputs t = bs.*1
    /\ criterion_labels t = bs.*2.
Proof.
  revert v st; induction bs as [|[x y] bs IH]; intros v st; cbn [loop].
  - intros [= <- <-]. exists []. by rewrite !app_nil_r.
  - intros H. apply M_bind_Ok in H as (v1 & st1 & Hb & H).
    destruct (truthy_float (args.clip_norm a)) eqn:Hclip.
    { by rewrite train_batch_clipped in Hb. }
    rewrite train_batch_unclipped in Hb by done.
    injection Hb as <- <-.
    apply IH in H as (t & Ht & Hm & Hc). simpl in Ht.
    eexists. split; [rewrite Ht, <- app_assoc; reflexivity|].
    rewrite model_inputs_app, criterion_labels_app, Hm, Hc. done.
Qed.

(** Where the gradient is to be clipped, an epoch whose pass gives a
    mini-batch raises in the first one. *)
Lemma epoch_clipped B a sd ld vm vl v ep st x y bs :
  truthy_float (args.clip_norm a) = true ->
  iterate B (world st) ld = (x, y) :: bs ->
  epoch B a sd ld vm vl v ep st
  = (Raise TypeError,
     {| world :=
          effect B
            (Backward
               (criterion B
                  (forward B (effect B ModelTrain
                                (effect B Iterate (world st))) x) y))
            (effect B ZeroGrad
               (effect B (Criterion y)
                  (effect B (ModelCall x)
                     (effect B ModelTrain (effect B Iterate (world st))))));
        trace :=
          trace st
          ++ [Iterate; ModelTrain; ModelCall x; Criterion y; ZeroGrad;
              Backward
                (criterion B
                   (forward B (effect B ModelTrain
                                 (effect B Iterate (world st))) x) y)] |}).
Proof.
  intros Hclip Hbs. unfold epoch.
  erewrite M_bind_eval by reflexivity.
  erewrite M_bind_eval by reflexivity.
  rewrite Hbs. cbn [loop].
  erewrite M_bind_raise;
    [|apply M_bind_raise; by apply train_batch_clipped].
  simpl. by rewrite <- !app_assoc.
Qed.

(** C6: with the data loader as the spec has it, and a generator whose
    draw is a permutation of the positions, the mini-batches of the pass
    of an epoch hold every training sample once, with its label, and
    every mini-batch has [batch_size] samples, the last one at least one
    and at most as many.  An epoch that runs to its end has run the model,
    the criterion and one optimizer step on each mini-batch, once and in
    the order of the pass, and has gathered in [train_y] the labels of
    the mini-batches, one for each training sample; the F1 it appends is
    the one of these labels.  Where [args.clip_norm] is set, the epoch
    does not get there: it raises TypeError in its first mini-batch, the
    only one the model is run on. *)
Theorem epoch_processes_each_sample_once B randperm a save_dir mat label
    loader val_mat val_label
    (v : epoch_vars (with_spec_loader B randperm)) ep
    (st : state (with_spec_loader B randperm)) :
  data_loader (with_spec_loader B randperm) mat label (args.batch_size a)
  = Ok loader ->
  randperm (world st) (length (rows mat)) ≡ₚ seq 0 (length (rows mat)) ->
  let B' := with_spec_loader B randperm in
  let batches := iterate B' (world st) loader in
  concat ((fun b : ndarray * list Z => zip (rows b.1) b.2) <$> batches)
    ≡ₚ zip (rows mat) label
  /\ (forall i b,
        batches !! i = Some b ->
        length (rows b.1) = length b.2
        /\ 0 < Z.of_nat (length b.2) <= args.batch_size a
        /\ ((S i < length batches)%nat
            -> Z.of_nat (length b.2) = args.batch_size a))
  /\ (forall v' st',
        epoch B' a save_dir loader val_mat val_label v ep st = (Ok v', st') ->
        exists (bv : batch_vars B') t1 t2,
          trace st'
          = trace st ++ Iterate :: t1 ++ ModelEval :: ModelCall val_mat :: t2
          /\ model_inputs t1 = batches.*1
          /\ criterion_labels t1 = batches.*2
          /\ steps t1 = length batches
          /\ train_y bv = concat batches.*2
          /\ train_y bv ≡ₚ label
          /\ length (train_y bv) = length (rows mat)
          /\ train_f1 v'
             = train_f1 v ++ [f1_score B' (train_y bv) (train_pred bv)])
  /\ (truthy_float (args.clip_norm a) = true ->
      forall x y bs,
        batches = (x, y) :: bs ->
        exists l,
          (epoch B' a save_dir loader val_mat val_label v ep st).1
          = Raise TypeError
          /\ trace (epoch B' a save_dir loader val_mat val_label v ep st).2
             = trace st
               ++ [Iterate; ModelTrain; ModelCall x; Criterion y; ZeroGrad;
                   Backward l]).
Proof.
  intros Hld Hperm B' batches.
  destruct (spec_iterate_partition B randperm a mat label loader (world st)
              Hld Hperm) as (Hpart & Hsize & Hlab).
  assert (length label = length (rows mat)) as Hlen.
  { simpl in Hld. unfold spec_data_loader in Hld.
    destruct (Nat.eqb (length (rows mat)) (length label)) eqn:E;
      [|discriminate].
    by apply Nat.eqb_eq in E. }
  split; [exact Hpart|]. split; [exact Hsize|]. split.
  - intros v' st' H.
    apply epoch_inv in H
      as (bv & st1 & l & Hloop & _ & _ & Hf1 & _ & _ & Ht & _).
    pose proof Hloop as Hcalls.
    apply batches_inv in Hloop as (t1 & Ht1 & _ & _ & _ & Hst & Hy & _).
    apply batches_calls in Hcalls as (t1' & Ht1' & Hm & Hc).
    rewrite Ht1 in Ht1'. apply app_inv_head in Ht1'. subst t1'.
    cbn [trace train_y] in Ht1, Hy. rewrite app_nil_l in Hy.
    exists bv, t1. eexists. split.
    { rewrite Ht, Ht1, <- !app_assoc. reflexivity. }
    repeat split; try done.
    + rewrite Hy. exact Hlab.
    + rewrite Hy. etrans; [exact (Permutation_length Hlab)|exact Hlen].
  - intros Hclip x y bs Hbs. subst batches B'.
    eexists. by rewrite (epoch_clipped _ _ _ _ _ _ _ _ _ _ _ _ Hclip Hbs).
Qed.

Lemma epoch_processes_each_sample_once_witness :
  exists v' st' (bv : batch_vars toy) t1 t2,
    epoch toy example_args None example_loader (Arr2 [[3; 1; 4]]) [1]
          {| train_loss := []; train_f1 := []; val_f1 := [];
             last_loss := None |} 0 start
    = (Ok v', st')
    /\ trace st'
       = trace start
         ++ Iterate :: t1 ++ ModelEval :: ModelCall (Arr2 [[3; 1; 4]]) :: t2
    /\ model_inputs t1 = [Arr2 [[2; 7; 3]]; Arr2 [[5; 9; 9]]]
    /\ train_y bv = [0; 1]
    /\ train_y bv ≡ₚ [1; 0].
Proof.
  assert (succeeded
            (epoch toy example_args None example_loader (Arr2 [[3; 1; 4]])
                   [1]
                   {| train_loss := []; train_f1 := []; val_f1 := [];
                      last_loss := None |} 0 start).1
          = true) as Hok by (vm_compute; reflexivity).
  revert Hok.
  destruct (epoch toy example_args None example_loader (Arr2 [[3; 1; 4]]) [1]
              {| train_loss := []; train_f1 := []; val_f1 := [];
                 last_loss := None |} 0 start)
    as [[v'|e] st'] eqn:E; intros Hok; [|discriminate Hok].
  assert (data_loader toy (Arr2 [[5; 9; 9]; [2; 7; 3]]) [1; 0]
                      (args.batch_size example_args)
          = Ok example_loader) as Hld by (vm_compute; reflexivity).
  destruct (epoch_processes_each_sample_once toy_core
              (fun _ n => reverse (seq 0 n)) example_args None
              (Arr2 [[5; 9; 9]; [2; 7; 3]]) [1; 0] example_loader
              (Arr2 [[3; 1; 4]]) [1]
              {| train_loss := []; train_f1 := []; val_f1 := [];
                 last_loss := None |} 0 start Hld (reverse_Permutation _))
    as (_ & _ & Hepoch & _).
  destruct (Hepoch v' st' E)
    as (bv & t1 & t2 & Ht & Hm & _ & _ & Hy & Hperm & _).
  exists v', st', bv, t1, t2. split; [reflexivity|]. split; [exact Ht|].
  split; [etrans; [exact Hm|]; vm_compute; reflexivity|].
  split; [etrans; [exact Hy|]; vm_compute; reflexivity|exact Hperm].
Defined.

(** With [--clip-norm 1.0] the first epoch stops in its first mini-batch:
    the model has been run on one of the two training samples. *)
Example epoch_clip_norm_example :
  raised
    (epoch toy (example_run (Some 1%float) 2 "labels.csv") None example_loader
           (Arr2 [[3; 1; 4]]) [1]
           {| train_loss := []; train_f1 := []; val_f1 := [];
              last_loss := None |} 0 start).1
  = Some TypeError
  /\ model_inputs
       (trace (epoch toy (example_run (Some 1%float) 2 "labels.csv") None
                     example_loader (Arr2 [[3; 1; 4]]) [1]
                     {| train_loss := []; train_f1 := []; val_f1 := [];
                        last_loss := None |} 0 start).2)
     = [Arr2 [[2; 7; 3]]].
Proof. split; vm_compute; reflexivity. Qed.

(** * Further properties of [read_data] *)

(** X1: for an [L1] column whose cells all hold a string, the label
    encoding of lines 24 to 29 does not raise: the lookup of line 29 finds
    every value, so that every row of the label file gets a number, at
    least 0 and below the number of distinct [L1] values, the size of
    [lang_dict]. *)
Theorem label_total_in_range lang :
  exists enc,
    label lang = Ok enc
    /\ length enc = length lang
    /\ Forall (fun n => 0 <= n < Z.of_nat (size (lang_dict lang))) enc
    /\ size (lang_dict lang) = length (elements (list_to_set lang : gset string)).
Proof.
  destruct (label_Forall2 lang) as (enc & Henc & Hdec).
  assert (size (lang_dict lang) = length (lang_list lang)) as Hsize.
  { unfold lang_dict. rewrite dict_of_list_to_map, map_size_list_to_map.
    - rewrite length_reverse. unfold enumerate.
      by rewrite <- (length_fmap fst), fmap_fst_enumerate_from, length_seqZ,
        Nat2Z.id.
    - rewrite fmap_reverse, reverse_Permutation. unfold enumerate.
      rewrite fmap_fst_enumerate_from. apply NoDup_seqZ. }
  exists enc. split; [done|]. split; [by rewrite (Forall2_length _ _ _ Hdec)|].
  split.
  - rewrite Hsize. apply Forall_forall. intros n Hn.
    apply list_elem_of_lookup in Hn as [k Hk].
    destruct (Forall2_lookup_r _ _ _ _ _ Hdec Hk) as (l & _ & Hd).
    apply lookup_lang_dict in Hd as [H0 Hl].
    apply lookup_lt_Some in Hl. lia.
  - rewrite Hsize. by rewrite lang_list_Permutation.
Qed.

(** X2: an empty directory: [np.array([])] is an array of one dimension and no
    entry, whatever [max_length] is; with [line=True] no label is returned,
    with [line=False] the labels of all the rows of the label file. *)
Theorem read_data_empty_directory iso fs file_dir label_file ml vs line lang :
  read_csv_L1 fs label_file = Ok lang ->
  listdir fs file_dir = Ok [] ->
  exists enc,
    label lang = Ok enc
    /\ read_data iso fs file_dir label_file ml vs line
       = Ok (Arr1 [], if line then [] else enc, lang_dict lang).
Proof.
  intros Hl Hf. destruct (label_Forall2 lang) as (enc & Henc & _).
  exists enc. split; [done|]. unfold read_data.
  rewrite Hl. simpl. rewrite Henc. simpl. rewrite Hf. simpl.
  by destruct line.
Qed.

Lemma read_data_empty_directory_witness :
  exists enc,
    label ["KOR"; "ARA"; "KOR"] = Ok enc
    /\ read_data decimal (only_file "z.txt" example_fs) "feat/train"
                 "labels.csv" 3 9 true
       = Ok (Arr1 [], [], lang_dict ["KOR"; "ARA"; "KOR"]).
Proof.
  apply (read_data_empty_directory decimal (only_file "z.txt" example_fs)
           "feat/train" "labels.csv" 3 9 true ["KOR"; "ARA"; "KOR"]);
    vm_compute; reflexivity.
Defined.

Lemma getitem_out_of_range {A} (l : list A) i :
  Z.of_nat (length l) <= i -> getitem l i = Raise IndexError.
Proof.
  intros Hi. unfold getitem.
  destruct (i <? 0) eqn:E1; [lia|].
  destruct ((0 <=? i) && (i <? Z.of_nat (length l))) eqn:E2; [|done].
  apply andb_true_iff in E2 as [_ E2]. lia.
Qed.

Lemma for_each_read_file_index_error fs file_dir ml vs enc files liness i st :
  0 <= i <= Z.of_nat (length enc) ->
  Forall2 (fun f lines => readlines fs (join file_dir f) = Ok lines)
          files liness ->
  Z.of_nat (length enc) < i + Z.of_nat (length files) ->
  for_each (read_file fs file_dir ml vs true enc) (enumerate_from i files) st
  = Raise IndexError.
Proof.
  intros Hi Hread. revert i st Hi.
  induction Hread as [|f lines files liness Hf Hread IH];
    intros i [samples ll] Hi Hlen; simpl in *.
  - lia.
  - rewrite Hf. simpl.
    destruct (Z.eq_dec i (Z.of_nat (length enc))) as [->|Hne].
    + by rewrite getitem_out_of_range.
    + destruct (getitem_in_range enc i) as [li ->]; [lia|]. simpl.
      apply IH; lia.
Qed.

(** X3: more files than rows in the label file: with [line=True] the label of
    the first file without a row is read out of range, and [read_data]
    raises IndexError, the files before it having been read. *)
Theorem read_data_more_files_than_rows iso fs file_dir label_file ml vs
    lang files liness :
  read_csv_L1 fs label_file = Ok lang ->
  listdir fs file_dir = Ok files ->
  Forall2 (fun f lines => readlines fs (join file_dir f) = Ok lines)
          files liness ->
  (length lang < length files)%nat ->
  read_data iso fs file_dir label_file ml vs true = Raise IndexError.
Proof.
  intros Hl Hf Hread Hlen. unfold read_data.
  rewrite Hl. simpl.
  destruct (label_Forall2 lang) as (enc & -> & Hdec). simpl.
  rewrite Hf. simpl. unfold enumerate.
  apply Forall2_length in Hdec.
  rewrite (for_each_read_file_index_error _ _ _ _ _ _ liness); [done|lia|done|lia].
Qed.

Lemma read_data_more_files_than_rows_witness :
  read_data decimal (relabelled ["KOR"] example_fs) "feat/train" "labels.csv"
            3 9 true
  = Raise IndexError.
Proof.
  apply (read_data_more_files_than_rows decimal (relabelled ["KOR"] example_fs)
           "feat/train" "labels.csv" 3 9 ["KOR"] ["a.txt"; "b.txt"]
           [["3 1 4 1
"; "5
"]; ["2 7
"]]).
  - vm_compute; reflexivity.
  - vm_compute; reflexivity.
  - repeat constructor.
  - simpl; lia.
Defined.

Lemma length_padded ml vs (tokens : list pyatom) :
  0 <= ml -> length (padded ml vs tokens) = Z.to_nat ml.
Proof.
  intros Hml. unfold padded, slice_to.
  destruct (Z.leb_spec 0 ml) as [_|?]; [|lia].
  rewrite length_app, length_take, length_list_mul_singleton,
    length_replicate. lia.
Qed.

Lemma for_each_read_file_texts fs file_dir ml vs enc files i samples ll
    samples' ll' :
  for_each (read_file fs file_dir ml vs false enc) (enumerate_from i files)
           (samples, ll) = Ok (samples', ll') ->
  exists texts : list string,
    Forall2 (fun f text => read fs (join file_dir f) = Ok text) files texts
    /\ samples'
       = samples
         ++ concat ((fun text : string =>
                       Atom <$> padded ml vs (PyStr <$> split text))
                      <$> texts)
    /\ ll' = ll.
Proof.
  revert i samples; induction files as [|f files IH]; intros i samples; simpl.
  - intros [= <- <-]. exists []. rewrite app_nil_r. by repeat constructor.
  - intros H. inv_bind H. unfold read_file in Ha.
    inv_bind Ha. rename a0 into text. injection Ha as <-.
    apply IH in H as (texts & Hread & -> & ->).
    exists (text :: texts). simpl. rewrite <- app_assoc.
    by repeat split; [constructor|..].
Qed.

Lemma np_array_atoms iso (l : list pyatom) mat :
  np_array iso (Atom <$> l) = Ok mat ->
  exists zs, mat = Arr1 zs /\ length zs = length l.
Proof.
  destruct l as [|v l].
  - simpl. intros [= <-]. by exists [].
  - change (Atom <$> v :: l) with (Atom v :: (Atom <$> l)).
    unfold np_array. destruct (forallb _ _); [|discriminate].
    intros H. inv_bind H. rename a into zs.
    injection H as <-. exists zs. split; [done|].
    apply comprehension_Forall2, Forall2_length in Ha.
    rewrite <- Ha. simpl. by rewrite length_fmap.
Qed.



(** * Further properties of [train] *)

(** ** The calls of a run, whether it returns or raises *)

Lemma calls_only_ret {B A} (P : call (Loss B) -> Prop) (a : A) :
  calls_only P (ret B a).
Proof. intros st. exists []. by rewrite app_nil_r. Qed.

Lemma calls_only_raise {B A} (P : call (Loss B) -> Prop) e :
  calls_only P (@raise B A e).
Proof. intros st. exists []. by rewrite app_nil_r. Qed.

Lemma calls_only_lift {B A} (P : call (Loss B) -> Prop) (r : result A) :
  calls_only P (lift B r).
Proof. intros st. exists []. by rewrite app_nil_r. Qed.

Lemma calls_only_observe {B A} (P : call (Loss B) -> Prop)
    (f : World B -> A) :
  calls_only P (observe B f).
Proof. intros st. exists []. by rewrite app_nil_r. Qed.

Lemma calls_only_read {B A} (P : call (Loss B) -> Prop)
    (f : state B -> result A) :
  calls_only P (fun st => (f st, st)).
Proof. intros st. exists []. by rewrite app_nil_r. Qed.

Lemma calls_only_do {B} (P : call (Loss B) -> Prop) c :
  P c -> calls_only P (do B c).
Proof. intros Hc st. exists [c]. split; [done|]. by constructor. Qed.

Lemma calls_only_bind {B A A'} (P : call (Loss B) -> Prop)
    (m : M B A) (k : A -> M B A') :
  calls_only P m -> (forall a, calls_only P (k a)) -> calls_only P (m ≫= k).
Proof.
  intros Hm Hk st. unfold mbind, M_bind, bind.
  destruct (Hm st) as (t1 & Ht1 & HP1).
  destruct (m st) as [[a|e] st1]; simpl in *.
  - destruct (Hk a st1) as (t2 & Ht2 & HP2).
    exists (t1 ++ t2). rewrite Ht2, Ht1, <- app_assoc.
    split; [done|]. by apply Forall_app.
  - by exists t1.
Qed.

Lemma calls_only_loop {B A S} (P : call (Loss B) -> Prop)
    (body : S -> A -> M B S) l s :
  (forall s x, x ∈ l -> calls_only P (body s x)) ->
  calls_only P (loop B body l s).
Proof.
  revert s; induction l as [|x l IH]; intros s Hbody; cbn [loop].
  - apply calls_only_ret.
  - apply calls_only_bind.
    + apply Hbody. by left.
    + intros s'. apply IH. intros s'' y Hy. apply Hbody. by right.
Qed.

Section CallsOnly.

Context (B : backend) (a : args.t) (save_dir : option string).
Context (P : call (Loss B) -> Prop).

(** [P] holds of every call but [torch.save] and the optimizer step; of
    the optimizer step where the gradient is not to be clipped; of
    [torch.save] on the checkpoint files of the epochs. *)
Hypothesis P_other :
  forall c, (forall p, c <> Save p) -> c <> OptimizerStep -> P c.
Hypothesis P_step :
  truthy_float (args.clip_norm a) = false -> P OptimizerStep.
Hypothesis P_save :
  forall ep, 0 <= ep < args.num_epochs a ->
             truthy_str save_dir = true ->
             args.save_every a <> 0 ->
             P (Save (save_path (default "" save_dir) ep)).

Lemma train_batch_calls_only v xy : calls_only P (train_batch B a v xy).
Proof.
  destruct xy as [x y]. intros st.
  destruct (truthy_float (args.clip_norm a)) eqn:Hclip.
  - rewrite train_batch_clipped by done. eexists. split; [reflexivity|].
    repeat constructor; apply P_other; intros; discriminate.
  - rewrite train_batch_unclipped by done. eexists. split; [reflexivity|].
    unfold step_calls.
    repeat constructor; try (apply P_other; intros; discriminate).
    by apply P_step.
Qed.

Lemma save_model_state_calls_only ep :
  0 <= ep < args.num_epochs a ->
  calls_only P (save_model_state B a save_dir ep).
Proof.
  intros Hep. unfold save_model_state, py_mod.
  destruct (truthy_str save_dir) eqn:Hdir; [|apply calls_only_ret].
  destruct (args.save_every a =? 0) eqn:Hs.
  - intros st. exists []. by rewrite app_nil_r.
  - apply Z.eqb_neq in Hs. apply calls_only_bind; [apply calls_only_lift|].
    intros r. destruct (_ || _); [|apply calls_only_ret].
    apply calls_only_do. by apply P_save.
Qed.

Lemma epoch_calls_only ld vm vl v ep :
  0 <= ep < args.num_epochs a ->
  calls_only P (epoch B a save_dir ld vm vl v ep).
Proof.
  intros Hep. unfold epoch.
  apply calls_only_bind; [apply calls_only_observe|intros batches].
  apply calls_only_bind;
    [apply calls_only_do, P_other; intros; discriminate|intros _].
  apply calls_only_bind; [|intros bv].
  { apply calls_only_loop. intros. apply train_batch_calls_only. }
  apply calls_only_bind; [|intros l].
  { destruct (loss bv); [apply calls_only_ret|apply calls_only_raise]. }
  apply calls_only_bind;
    [apply calls_only_do, P_other; intros; discriminate|intros _].
  apply calls_only_bind; [apply calls_only_observe|intros val_score].
  apply calls_only_bind;
    [apply calls_only_do, P_other; intros; discriminate|intros _].
  apply calls_only_bind; [by apply save_model_state_calls_only|intros _].
  apply calls_only_ret.
Qed.

Lemma train_calls_only fs : calls_only P (train B fs a save_dir).
Proof.
  unfold train.
  apply calls_only_bind; [apply calls_only_lift|intros dicts].
  apply calls_only_bind; [apply calls_only_lift|intros [[mat lab] ld]].
  apply calls_only_bind; [apply calls_only_read|intros [[[tm vm] tl] vl]].
  apply calls_only_bind;
    [apply calls_only_do, P_other; intros; discriminate|intros _].
  apply calls_only_bind;
    [apply calls_only_do, P_other; intros; discriminate|intros _].
  apply calls_only_bind;
    [apply calls_only_do, P_other; intros; discriminate|intros _].
  apply calls_only_bind;
    [apply calls_only_do, P_other; intros; discriminate|intros _].
  apply calls_only_bind; [apply calls_only_lift|intros loader].
  apply calls_only_bind;
    [apply calls_only_do, P_other; intros; discriminate|intros _].
  unfold train_epochs.
  apply calls_only_bind; [|intros v; apply calls_only_ret].
  apply calls_only_loop. intros v ep Hep. apply epoch_calls_only.
  unfold range in Hep. apply elem_of_seqZ in Hep. lia.
Qed.

End CallsOnly.

Lemma saves_Forall {L} (Q : string -> Prop) (t : list (call L)) :
  Forall (fun c => forall p, c = Save p -> Q p) t -> Forall Q (saves t).
Proof.
  induction 1 as [|c t Hc _ IH]; [constructor|].
  destruct c; simpl; try done. constructor; [by apply Hc | done].
Qed.

Lemma steps_Forall {L} (t : list (call L)) :
  Forall (fun c => c <> OptimizerStep) t -> steps t = 0%nat.
Proof.
  induction 1 as [|c t Hc _ IH]; [done|].
  destruct c; try done.
Qed.

(** X5: without a [save_dir], [None] or the empty string, [train] never calls
    [torch.save], whether it returns or raises. *)
Theorem train_without_save_dir B fs a save_dir st :
  truthy_str save_dir = false ->
  saves (trace (train B fs a save_dir st).2) = saves (trace st).
Proof.
  intros Hdir.
  destruct (train_calls_only B a save_dir (fun c => forall p, c = Save p -> False)
              ) with (fs := fs) (st := st) as (t & Ht & HP).
  - intros c Hc _ p ->. by eapply Hc.
  - discriminate.
  - intros ep _ Hdir'. congruence.
  - rewrite Ht, saves_app. apply saves_Forall in HP.
    destruct (saves t) as [|p ps]; [by rewrite app_nil_r|].
    by apply Forall_cons in HP as [[] _].
Qed.

Lemma train_without_save_dir_witness :
  saves (trace (train toy example_fs example_args (Some "") start).2)
  = saves (trace start).
Proof.
  apply (train_without_save_dir toy example_fs example_args (Some "") start).
  reflexivity.
Defined.

(** X6: the only files [train] has [torch.save] write are checkpoints of
    epochs of the run, [model-state-%04d.pkl] in [save_dir], whether it
    returns or raises. *)
Theorem train_saves_checkpoints_only B fs a save_dir st :
  exists t,
    trace (train B fs a save_dir st).2 = trace st ++ t
    /\ Forall (fun p => exists ep,
                   0 <= ep < args.num_epochs a
                   /\ p = save_path (default "" save_dir) ep)
              (saves t).
Proof.
  destruct (train_calls_only B a save_dir
              (fun c => forall p, c = Save p ->
                 exists ep, 0 <= ep < args.num_epochs a
                            /\ p = save_path (default "" save_dir) ep))
    with (fs := fs) (st := st) as (t & Ht & HP).
  - intros c Hc _ p ->. by destruct (Hc p).
  - discriminate.
  - intros ep Hep _ _ p [= <-]. by exists ep.
  - exists t. split; [done|]. by apply saves_Forall.
Qed.

(** X7: where [args.clip_norm] is set, [train] takes no optimizer step at
    all, whether it returns or raises: every training step stops at line
    132. *)
Theorem train_clip_norm_no_step B fs a save_dir st :
  truthy_float (args.clip_norm a) = true ->
  steps (trace (train B fs a save_dir st).2) = steps (trace st).
Proof.
  intros Hclip.
  destruct (train_calls_only B a save_dir (fun c => c <> OptimizerStep))
    with (fs := fs) (st := st) as (t & Ht & HP).
  - done.
  - congruence.
  - discriminate.
  - rewrite Ht, steps_app, (steps_Forall t HP). lia.
Qed.

Lemma train_clip_norm_no_step_witness :
  steps (trace (train toy example_fs
                      (example_run (Some 1%float) 2 "labels.csv")
                      (Some "model/run") start).2)
  = steps (trace start).
Proof.
  apply (train_clip_norm_no_step toy example_fs
           (example_run (Some 1%float) 2 "labels.csv") (Some "model/run")
           start).
  vm_compute. reflexivity.
Defined.

(** ** An empty training set *)

(** X8: where the passes over the data loader give no mini-batch (the
    training side of the split is empty) and there is an epoch to run,
    [loss] is read at line 141 without having been assigned: [train]
    raises UnboundLocalError in the first epoch, before any evaluation,
    optimizer step or checkpoint. *)
Theorem train_empty_training_set B fs a save_dir st
    dicts mat lab ld tm vm tl vl loader :
  1 <= args.num_epochs a ->
  pickle_load fs (join (args.feature_dir a) "dict.pkl") = Ok dicts ->
  read_data (int64_of_str B) fs (join (args.feature_dir a) "train")
            (args.label a) (args.max_length a) (Z.of_nat (size dicts.1)) true
  = Ok (mat, lab, ld) ->
  train_test_split B (world st) mat lab (args.val_split a)
  = Ok (tm, vm, tl, vl) ->
  data_loader B tm tl (args.batch_size a) = Ok loader ->
  (forall w, iterate B w loader = []) ->
  (train B fs a save_dir st).1 = Raise (UnboundLocalError "loss")
  /\ trace (train B fs a save_dir st).2
     = trace st
       ++ [TrainTestSplit;
           NativeLanguageCNN (Z.of_nat (size dicts.1)) (args.embed_dim a)
             (args.dropout a) (args.channel a) (Z.of_nat (size ld));
           Adam (args.lr a) (args.regularization a);
           CrossEntropyLoss;
           DataLoader (args.batch_size a);
           Iterate].
Proof.
  intros Hn Hd Hr Hsp Hld Hit. unfold train.
  erewrite M_bind_eval by (unfold lift; by rewrite Hd).
  erewrite M_bind_eval by (unfold lift; by rewrite Hr).
  cbv beta iota.
  erewrite M_bind_eval by (by rewrite Hsp).
  erewrite M_bind_eval by reflexivity.
  cbv beta iota.
  erewrite M_bind_eval by reflexivity.
  erewrite M_bind_eval by reflexivity.
  erewrite M_bind_eval by reflexivity.
  erewrite M_bind_eval by (unfold lift; by rewrite Hld).
  erewrite M_bind_eval by reflexivity.
  unfold train_epochs, range. rewrite seqZ_cons by lia. cbn [loop].
  erewrite M_bind_raise; [split; [reflexivity|]|].
  2:{ apply M_bind_raise. unfold epoch.
      erewrite M_bind_eval by reflexivity.
      erewrite M_bind_eval by reflexivity.
      rewrite Hit. cbn [loop].
      erewrite M_bind_eval by reflexivity.
      apply M_bind_raise. reflexivity. }
  simpl. by rewrite <- !app_assoc.
Qed.

Lemma train_empty_training_set_witness :
  (train toy (only_file "b.txt" example_fs) example_args (Some "model/run")
         start).1
  = Raise (UnboundLocalError "loss")
  /\ trace (train toy (only_file "b.txt" example_fs) example_args
                  (Some "model/run") start).2
     = trace start
       ++ [TrainTestSplit;
           NativeLanguageCNN 3 500 0.25 500 2;
           Adam 0.0625 0;
           CrossEntropyLoss;
           DataLoader 1;
           Iterate].
Proof.
  apply (train_empty_training_set toy (only_file "b.txt" example_fs)
           example_args (Some "model/run") start
           (dict_of [(0, "a b"); (1, "b c"); (2, "c d")],
            dict_of [("a b", 0); ("b c", 1); ("c d", 2)])
           (Arr2 [[2; 7; 3]]) [1] (lang_dict ["KOR"; "ARA"; "KOR"])
           (Arr2 []) (Arr2 [[2; 7; 3]]) [] [1] ([], 1)).
  - simpl; lia.
  - vm_compute; reflexivity.
  - vm_compute; reflexivity.
  - vm_compute; reflexivity.
  - vm_compute; reflexivity.
  - intros w. reflexivity.
Defined.

(** ** The calls of one epoch *)

(** X9: an epoch that runs to its end has made one backward pass and one
    optimizer step for each mini-batch of its pass over the loader; the
    model is put in evaluation mode and run on the validation set after
    all of them, and from there on the epoch makes no optimizer step: at
    most the checkpoint is saved. *)
Theorem epoch_one_step_per_batch B a save_dir loader val_mat val_label
    v ep st v' st' :
  epoch B a save_dir loader val_mat val_label v ep st = (Ok v', st') ->
  exists t1 t2,
    trace st'
    = trace st ++ Iterate :: t1 ++ ModelEval :: ModelCall val_mat :: t2
    /\ steps t1 = length (iterate B (world st) loader)
    /\ length (losses t1) = length (iterate B (world st) loader)
    /\ passes t1 = 0%nat /\ saves t1 = []
    /\ (t2 = [] \/ t2 = [Save (save_path (default "" save_dir) ep)]).
Proof.
  intros H.
  apply epoch_inv in H as (bv & st1 & l & Hloop & _ & _ & _ & _ & _ & Ht & _).
  apply batches_inv in Hloop as (t1 & Ht1 & Hs & Hp & Hl & Hst & _).
  simpl in Ht1. eexists t1, _. split.
  { rewrite Ht, Ht1, <- !app_assoc. reflexivity. }
  repeat split; try done.
  destruct (truthy_str save_dir && save_due a ep); auto.
Qed.

Lemma epoch_one_step_per_batch_witness :
  exists v' st' t1 t2,
    epoch toy example_args None example_loader (Arr2 [[3; 1; 4]]) [1]
          {| train_loss := []; train_f1 := []; val_f1 := [];
             last_loss := None |} 0 start
    = (Ok v', st')
    /\ trace st'
       = trace start
         ++ Iterate :: t1 ++ ModelEval :: ModelCall (Arr2 [[3; 1; 4]]) :: t2
    /\ steps t1 = 2%nat.
Proof.
  assert (succeeded
            (epoch toy example_args None example_loader (Arr2 [[3; 1; 4]])
                   [1]
                   {| train_loss := []; train_f1 := []; val_f1 := [];
                      last_loss := None |} 0 start).1
          = true) as Hok by (vm_compute; reflexivity).
  revert Hok.
  destruct (epoch toy example_args None example_loader (Arr2 [[3; 1; 4]]) [1]
              {| train_loss := []; train_f1 := []; val_f1 := [];
                 last_loss := None |} 0 start)
    as [[v'|e] st'] eqn:E; intros Hok; [|discriminate Hok].
  destruct (epoch_one_step_per_batch toy example_args None example_loader
              (Arr2 [[3; 1; 4]]) [1]
              {| train_loss := []; train_f1 := []; val_f1 := [];
                 last_loss := None |} 0 start v' st' E)
    as (t1 & t2 & Ht & Hst & _).
  exists v', st', t1, t2. split; [reflexivity|]. split; [exact Ht|].
  rewrite Hst. vm_compute. reflexivity.
Defined.

(** ** The names of the checkpoint files *)

Lemma string_app_inv_head (a b1 b2 : string) :
  (a ++ b1 = a ++ b2)%string -> b1 = b2.
Proof. induction a as [|c a IH]; simpl; [done|]. intros [= H]. by apply IH. Qed.

Lemma join_inv_head a b1 b2 :
  String.prefix "/" b1 = false -> String.prefix "/" b2 = false ->
  join a b1 = join a b2 -> b1 = b2.
Proof.
  unfold join. intros -> ->.
  destruct (String.eqb a "" || ends_with_slash a).
  - apply string_app_inv_head.
  - intros H. apply string_app_inv_head in H.
    by apply (string_app_inv_head "/") in H.
Qed.

Lemma checkpoint_number_decoded ep :
  0 <= ep < 9999 ->
  decimal (String.substring 12 4
             ("model-state-" ++ format_04d (ep + 1) ++ ".pkl"))
  = Ok (ep + 1)
  /\ String.length (format_04d (ep + 1)) = 4%nat.
Proof.
  intros Hep.
  assert (forallb
            (fun ep =>
               match decimal (String.substring 12 4
                                ("model-state-" ++ format_04d (ep + 1)
                                 ++ ".pkl")) with
               | Ok n => (n =? ep + 1)
                         && Nat.eqb (String.length (format_04d (ep + 1))) 4
               | Raise _ => false
               end) (seqZ 0 9999) = true) as Hall
    by (vm_compute; reflexivity).
  rewrite forallb_forall in Hall.
  specialize (Hall ep). rewrite <- list_elem_of_In, elem_of_seqZ in Hall.
  specialize (Hall ltac:(lia)).
  destruct (decimal _) as [n|]; [|discriminate].
  apply andb_true_iff in Hall as [Hn Hlen].
  apply Z.eqb_eq in Hn. apply Nat.eqb_eq in Hlen. by subst.
Qed.

(** X10: in a run of up to 9999 epochs the checkpoints of two epochs are
    different files, so that none is overwritten, and the number in the
    name has exactly four digits. *)
Theorem save_path_inj save_dir ep1 ep2 :
  0 <= ep1 < 9999 -> 0 <= ep2 < 9999 ->
  save_path save_dir ep1 = save_path save_dir ep2 ->
  ep1 = ep2.
Proof.
  intros H1 H2 H. unfold save_path in H.
  apply join_inv_head in H; [|done|done].
  destruct (checkpoint_number_decoded ep1 H1) as [Hd1 _].
  destruct (checkpoint_number_decoded ep2 H2) as [Hd2 _].
  rewrite H in Hd1. rewrite Hd1 in Hd2. injection Hd2. lia.
Qed.

Lemma save_path_inj_witness :
  save_path "model/run" 1 = "model/run/model-state-0002.pkl"
  /\ save_path "model/run" 1 <> save_path "model/run" 9998.
Proof.
  split; [vm_compute; reflexivity|].
  intros H. apply (save_path_inj "model/run" 1 9998) in H; lia.
Defined.

(** * Properties of the script *)

Lemma join_nonempty a b : b <> "" -> join a b <> "".
Proof.
  intros Hb. unfold join.
  destruct (String.prefix "/" b); [done|].
  destruct (String.eqb a "" || ends_with_slash a);
    destruct a; simpl; try done; by destruct b.
Qed.

(** X11: the script only has [torch.save] write checkpoints of epochs of the
    run, in the directory [join(args.log_dir, timestamp)] it has made,
    whether it ends or raises. *)
Theorem main_saves_in_log_dir B manual_seed sys fs a st :
  exists t,
    trace (main B manual_seed sys fs a st).2 = trace st ++ t
    /\ Forall (fun p => exists ep,
                   0 <= ep < args.num_epochs a
                   /\ p = save_path (join (args.log_dir a) (strftime sys)) ep)
              (saves t).
Proof.
  assert (calls_only
            (fun c : call (Loss B) => forall p, c = Save p ->
               exists ep, 0 <= ep < args.num_epochs a
                          /\ p = save_path (join (args.log_dir a)
                                                 (strftime sys)) ep)
            (main B manual_seed sys fs a)) as H.
  { unfold main.
    apply calls_only_bind; [apply calls_only_lift|intros _].
    apply calls_only_bind; [apply calls_only_lift|intros _].
    apply calls_only_bind; [|intros _].
    { unfold set_random_seed. destruct (args.seed a =? 0).
      - apply calls_only_ret.
      - apply calls_only_bind; [apply calls_only_lift|intros _].
        intros st0. exists []. by rewrite app_nil_r. }
    apply calls_only_bind; [|intros _; apply calls_only_ret].
    apply (train_calls_only B a
             (Some (join (args.log_dir a) (strftime sys)))).
    - intros c Hc _ p ->. by destruct (Hc p).
    - discriminate.
    - intros ep Hep _ _ p [= <-]. by exists ep. }
  destruct (H st) as (t & Ht & HP).
  exists t. split; [done|]. by apply saves_Forall.
Qed.

(** X12: with [--seed 0] the script seeds no generator: once the log
    directory and the log file are made, it runs [train] on the libraries
    as they are. *)
Theorem main_seed_zero B manual_seed sys fs a st :
  args.seed a = 0 ->
  makedirs sys (join (args.log_dir a) (strftime sys)) = Ok tt ->
  open_log sys (join (join (args.log_dir a) (strftime sys))
                     (strftime sys ++ ".log")) = Ok tt ->
  (main B manual_seed sys fs a st).2
  = (train B fs a (Some (join (args.log_dir a) (strftime sys))) st).2
  /\ succeeded (main B manual_seed sys fs a st).1
     = succeeded
         (train B fs a (Some (join (args.log_dir a) (strftime sys))) st).1.
Proof.
  intros Hseed Hmk Hlog. unfold main, set_random_seed.
  rewrite Hmk, Hlog, Hseed. simpl.
  unfold mbind, M_bind, bind, lift, ret. simpl.
  by destruct (train B fs a _ st) as [[r|e] st'].
Qed.

Lemma main_seed_zero_witness :
  saves (trace (main toy (fun _ w => w + 1000) example_system example_fs
                     (with_seed 0 example_args) start).2)
  = saves (trace (train toy example_fs (with_seed 0 example_args)
                        (Some "model/2017-11-04-120000") start).2).
Proof.
  destruct (main_seed_zero toy (fun _ w => w + 1000) example_system
              example_fs (with_seed 0 example_args) start)
    as [H _]; [reflexivity|reflexivity|reflexivity|].
  by rewrite H.
Defined.

Lemma main_Ok_inv B manual_seed sys fs a st st' :
  main B manual_seed sys fs a st = (Ok tt, st') ->
  exists st0 r,
    trace st0 = trace st
    /\ train B fs a (Some (join (args.log_dir a) (strftime sys))) st0
       = (Ok r, st').
Proof.
  unfold main. intros H.
  apply M_bind_Ok in H as ([] & st1 & H1 & H).
  unfold lift in H1. injection H1 as _ <-.
  apply M_bind_Ok in H as ([] & st1 & H1 & H).
  unfold lift in H1. injection H1 as _ <-.
  apply M_bind_Ok in H as ([] & st1 & Hseed & H).
  apply M_bind_Ok in H as (r & st2 & Htrain & H).
  injection H as <-.
  exists st1, r. split; [|done].
  unfold set_random_seed in Hseed.
  destruct (args.seed a =? 0).
  - by injection Hseed as <-.
  - apply M_bind_Ok in Hseed as ([] & st3 & H1 & H2).
    unfold lift in H1. injection H1 as _ <-.
    unfold seed_generators in H2. by injection H2 as <-.
Qed.

(** X13: the directory the script hands to [train] is never empty, so a run of
    the script with [num_epochs >= 1] that ends has [save_every] other
    than zero and has saved, last of all, the checkpoint of its last
    epoch in [join(args.log_dir, timestamp)]. *)
Theorem main_last_checkpoint B manual_seed sys fs a st st' :
  strftime sys <> "" ->
  1 <= args.num_epochs a ->
  main B manual_seed sys fs a st = (Ok tt, st') ->
  args.save_every a <> 0
  /\ exists t,
      trace st' = trace st ++ t
      /\ last (saves t)
         = Some (save_path (join (args.log_dir a) (strftime sys))
                           (args.num_epochs a - 1)).
Proof.
  intros Hts Hn H.
  apply main_Ok_inv in H as (st0 & r & Ht0 & H).
  assert (truthy_str (Some (join (args.log_dir a) (strftime sys))) = true)
    as Htruthy.
  { simpl. apply negb_true_iff, String.eqb_neq. by apply join_nonempty. }
  apply train_inv in H as (t & Ht & _ & Hs & _ & _ & _ & Hse).
  rewrite Htruthy in Hs. simpl in Hs.
  split; [by apply Hse|]. exists t. rewrite <- Ht0. split; [done|].
  rewrite Hs. unfold range.
  replace (args.num_epochs a) with ((args.num_epochs a - 1) + 1) at 1 by lia.
  rewrite seqZ_app by lia.
  change (seqZ (0 + (args.num_epochs a - 1)) 1) with [args.num_epochs a - 1].
  rewrite List.filter_app, fmap_app. cbn [List.filter].
  replace (save_due a (args.num_epochs a - 1)) with true.
  - by rewrite list_fmap_singleton, last_snoc.
  - symmetry. unfold save_due. rewrite Z.eqb_refl. apply orb_true_r.
Qed.

Lemma main_last_checkpoint_witness :
  exists st',
    main toy (fun _ w => w) example_system example_fs example_args start
    = (Ok tt, st')
    /\ last (saves (trace st'))
       = Some "model/2017-11-04-120000/model-state-0003.pkl".
Proof.
  assert (succeeded
            (main toy (fun _ w => w) example_system example_fs example_args
                  start).1
          = true) as Hok by (vm_compute; reflexivity).
  revert Hok.
  destruct (main toy (fun _ w => w) example_system example_fs example_args
                 start)
    as [[[]|e] st'] eqn:E; intros Hok; [|discriminate Hok].
  exists st'. split; [reflexivity|].
  assert (strftime example_system <> "") as Hts by discriminate.
  assert (1 <= args.num_epochs example_args) as Hn by (simpl; lia).
  destruct (main_last_checkpoint toy (fun _ w => w) example_system
              example_fs example_args start st' Hts Hn E)
    as (_ & t & Ht & Hl).
  change (trace start ++ t) with t in Ht. rewrite Ht, Hl.
  vm_compute. reflexivity.
Defined.
